(** * Highlight analysis service: a shallow embedding of
      [app/services/ai/analysis.py] (class [AnalysisService]).

    Conventions of the embedding.

    - A Python [str] is a [string]; each character is read as the Unicode
      code point of the same number (U+0000 .. U+00FF).  [str.lower],
      [str.strip], [\d], [\w] and [\b] are given with the meaning they have
      on these code points.
    - A Python [float] is an exact rational of [Q]: the development is about
      the arithmetic the code writes down, not about binary rounding.
    - A [dict] read through [.get(key, default)] is a record whose fields are
      [option]s, together with the getter that supplies the default. *)

From Stdlib Require Import Bool List String Ascii NArith ZArith QArith Qround Qabs.
From Stdlib Require Import Lia Lqa Sorted Permutation DecimalString.
Import ListNotations.

Local Open Scope string_scope.

(** ** Python strings *)

Module PyStr.

Definition code (c : ascii) : N := N_of_ascii c.

Definition between (lo hi : N) (c : ascii) : bool :=
  ((lo <=? code c) && (code c <=? hi))%N.

(** [A-Z] *)
Definition is_ascii_upper (c : ascii) : bool := between 65 90 c.

(** [a-z] *)
Definition is_ascii_lower (c : ascii) : bool := between 97 122 c.

(** [\d] on a [str] pattern: the decimal digits. *)
Definition is_digit (c : ascii) : bool := between 48 57 c.

(** [str.isspace] for one character. *)
Definition is_space (c : ascii) : bool :=
  between 9 13 c || between 28 32 c || (code c =? 133)%N || (code c =? 160)%N.

(** [\w] on a [str] pattern: alphanumeric characters and the underscore. *)
Definition is_word (c : ascii) : bool :=
  is_digit c || is_ascii_upper c || is_ascii_lower c || (code c =? 95)%N
  || (code c =? 170)%N || between 178 179 c || (code c =? 181)%N
  || between 185 186 c || between 188 190 c
  || between 192 214 c || between 216 246 c || between 248 255 c.

(** One character of [str.lower]: A-Z and the upper-case letters of the
    Latin-1 block (all of U+00C0 .. U+00DE but the multiplication sign)
    move 32 places up. *)
Definition lower_char (c : ascii) : ascii :=
  if is_ascii_upper c || (between 192 222 c && negb (code c =? 215)%N)
  then ascii_of_N (code c + 32)
  else c.

(** [s.lower()] *)
Fixpoint lower (s : string) : string :=
  match s with
  | EmptyString => EmptyString
  | String c rest => String (lower_char c) (lower rest)
  end.

(** [s.startswith(p)] *)
Fixpoint startswith (s p : string) : bool :=
  match p, s with
  | EmptyString, _ => true
  | String _ _, EmptyString => false
  | String a p', String b s' => Ascii.eqb a b && startswith s' p'
  end.

(** [needle in haystack]: containment as a substring. *)
Fixpoint contains (needle haystack : string) : bool :=
  match haystack with
  | EmptyString => startswith EmptyString needle
  | String _ rest => startswith haystack needle || contains needle rest
  end.

(** [re.search(r'\d+', s)] finds something. *)
Fixpoint has_digit (s : string) : bool :=
  match s with
  | EmptyString => false
  | String c rest => is_digit c || has_digit rest
  end.

(** [s.split(sep)] for a one-character separator. *)
Fixpoint split (sep : ascii) (s : string) : list string :=
  match s with
  | EmptyString => [EmptyString]
  | String c rest =>
      if Ascii.eqb c sep then EmptyString :: split sep rest
      else match split sep rest with
           | [] => [String c EmptyString]
           | piece :: more => String c piece :: more
           end
  end.

Fixpoint lstrip (s : string) : string :=
  match s with
  | EmptyString => EmptyString
  | String c rest => if is_space c then lstrip rest else s
  end.

Fixpoint rstrip (s : string) : string :=
  match s with
  | EmptyString => EmptyString
  | String c rest =>
      match rstrip rest with
      | EmptyString => if is_space c then EmptyString else String c EmptyString
      | kept => String c kept
      end
  end.

(** [s.strip()] *)
Definition strip (s : string) : string := rstrip (lstrip s).

(** [s[:n]] *)
Fixpoint take (n : nat) (s : string) : string :=
  match n, s with
  | O, _ => EmptyString
  | S _, EmptyString => EmptyString
  | S n', String c rest => String c (take n' rest)
  end.

(** [sep.join(pieces)] *)
Fixpoint join (sep : string) (pieces : list string) : string :=
  match pieces with
  | [] => EmptyString
  | [p] => p
  | p :: more => p ++ sep ++ join sep more
  end.

(** [re.findall(r'\b[L]{n,}\b', s)] for a class [L] of ASCII letters: the
    maximal runs of [L] of length at least [n] that have no [\w] character
    next to them on either side.  [prev_word] tells whether the character
    before the current one is a [\w] character; [run] is the run being read
    when it started at a word boundary. *)
Definition emit (min_len : nat) (run : option string) : list string :=
  match run with
  | Some r => if (min_len <=? String.length r)%nat then [r] else []
  | None => []
  end.

Fixpoint scan_runs (is_letter : ascii -> bool) (min_len : nat)
         (prev_word : bool) (run : option string) (s : string) : list string :=
  match s with
  | EmptyString => emit min_len run
  | String c rest =>
      if is_letter c then
        match run with
        | Some r =>
            scan_runs is_letter min_len true (Some (r ++ String c EmptyString)) rest
        | None =>
            if prev_word then scan_runs is_letter min_len true None rest
            else scan_runs is_letter min_len true (Some (String c EmptyString)) rest
        end
      else
        (if is_word c then [] else emit min_len run)
          ++ scan_runs is_letter min_len (is_word c) None rest
  end.

Definition findall_runs (is_letter : ascii -> bool) (min_len : nat) (s : string)
  : list string :=
  scan_runs is_letter min_len false None s.

End PyStr.

(** ** Python numbers *)

Local Open Scope Q_scope.

Module PyNum.

(** [max(a, b)]: the first argument unless the second is larger. *)
Definition max2 (a b : Q) : Q := if Qlt_le_dec a b then b else a.

(** [min(a, b)]: the first argument unless the second is smaller. *)
Definition min2 (a b : Q) : Q := if Qlt_le_dec b a then b else a.

(** [sum(values)], which starts from 0 and adds from the left. *)
Definition sum (values : list Q) : Q := fold_left Qplus values 0.

(** [np.mean(values)] *)
Definition mean (values : list Q) : Q :=
  sum values / inject_Z (Z.of_nat (List.length values)).

(** Rounding to the nearest integer, a tie going to the even neighbour. *)
Definition round_half_even (x : Q) : Z :=
  let f := Qfloor x in
  let r := x - inject_Z f in
  if Qlt_le_dec r (1 # 2) then f
  else if Qlt_le_dec (1 # 2) r then (f + 1)%Z
  else if Z.even f then f else (f + 1)%Z.

(** [round(x, ndigits)] for a non-negative [ndigits]. *)
Definition round (x : Q) (ndigits : nat) : Q :=
  let scale := inject_Z (10 ^ Z.of_nat ndigits) in
  inject_Z (round_half_even (x * scale)) / scale.

(** [int(x)]: truncation towards zero. *)
Definition int (x : Q) : Z :=
  if Qlt_le_dec x 0 then Qceiling x else Qfloor x.

(** [range(start, stop, step)] for a positive [step]. *)
Definition range (start stop step : Z) : list Z :=
  map (fun i => (start + Z.of_nat i * step)%Z)
      (seq 0 (Z.to_nat ((stop - start + step - 1) / step))).

End PyNum.

(** ** Sorting and de-duplication

    [list.sort(key=..., reverse=True)] and [sorted(..., reverse=True)] are
    stable: elements whose keys compare equal keep their relative order.
    [gtb y x] says that the key of [y] is strictly greater than the key of
    [x]. *)

Section StableSort.
Context {A : Type} (gtb : A -> A -> bool).

Fixpoint insert_desc (x : A) (l : list A) : list A :=
  match l with
  | [] => [x]
  | y :: rest => if gtb y x then y :: insert_desc x rest else x :: l
  end.

Definition sort_desc (l : list A) : list A := fold_right insert_desc [] l.
End StableSort.

(** [list(dict.fromkeys(l))]: the first occurrence of every element, in order. *)
Fixpoint dedup (seen l : list string) : list string :=
  match l with
  | [] => []
  | x :: rest =>
      if existsb (String.eqb x) seen then dedup seen rest
      else x :: dedup (x :: seen) rest
  end.

(** ** Data model *)

(** The six keys of an emotion mapping, in the order the code inserts them. *)
Inductive Emotion := Joy | Anger | Sadness | Fear | Surprise | Neutral.

Record Emotions := {
  joy : Q; anger : Q; sadness : Q; fear : Q; surprise : Q; neutral : Q
}.

Definition emotion_items (e : Emotions) : list (Emotion * Q) :=
  [(Joy, joy e); (Anger, anger e); (Sadness, sadness e);
   (Fear, fear e); (Surprise, surprise e); (Neutral, neutral e)].

Definition emotion_values (e : Emotions) : list Q := map snd (emotion_items e).

Definition emotions_map (f : Q -> Q) (e : Emotions) : Emotions :=
  {| joy := f (joy e); anger := f (anger e); sadness := f (sadness e);
     fear := f (fear e); surprise := f (surprise e); neutral := f (neutral e) |}.

(** A transcript segment: a dict with the keys ["start"], ["end"], ["text"]. *)
Record Segment := {
  seg_start : option Q;
  seg_end : option Q;
  seg_text : option string
}.

Definition get_start (s : Segment) : Q := match seg_start s with Some x => x | None => 0 end.
Definition get_end (s : Segment) : Q := match seg_end s with Some x => x | None => 0 end.
Definition get_text (s : Segment) : string :=
  match seg_text s with Some t => t | None => EmptyString end.

(** What [_analyze_segment] returns. *)
Record Annotation := {
  hook_score : Q;
  engagement_score : Q;
  viral_score : Q;
  emotions : Emotions;
  topic_shift : bool
}.

(** [{**segment, **analysis}] *)
Record AnalyzedSegment := {
  segment : Segment;
  analysis : Annotation
}.

Record Highlight := {
  hl_start : Z;
  hl_end : Z;
  hl_title : string;
  hl_description : string;
  hl_viral_score : Q;
  hl_hook_score : Q;
  hl_engagement_score : Q;
  hl_keywords : list string;
  hl_transcript : string
}.

(** The three shapes the ["sentiment"] entry takes. *)
Inductive Sentiment :=
| SentimentEmpty
| SentimentDefault (overall : Emotion) (score : Q)
| SentimentSummary (overall : Emotion) (distribution : Emotions) (positive negative : Q).

(** [sentiment.get("overall")] *)
Definition sentiment_overall (s : Sentiment) : option Emotion :=
  match s with
  | SentimentEmpty => None
  | SentimentDefault o _ => Some o
  | SentimentSummary o _ _ _ => Some o
  end.

(** [sentiment.get("distribution")] *)
Definition sentiment_distribution (s : Sentiment) : option Emotions :=
  match s with
  | SentimentSummary _ d _ _ => Some d
  | _ => None
  end.

(** The dict returned by [analyze_video]; ["segment_analysis"] is a key only
    of the result of the full path. *)
Record AnalysisResult := {
  highlights : list Highlight;
  topics : list string;
  keywords : list string;
  sentiment : Sentiment;
  segment_analysis : option (list AnalyzedSegment)
}.

Record Transcription := {
  tr_segments : option (list Segment);
  tr_text : option string
}.

(** ** The service *)

Module AnalysisService.
Import PyStr PyNum.

(** The two shapes of the vocabulary loops.  [add_once] is the loop that
    adds its bonus at the first match and breaks; [add_each] adds the bonus
    for every word that matches. *)
Fixpoint add_once (test : string -> bool) (words : list string) (bonus score : Q) : Q :=
  match words with
  | [] => score
  | w :: rest => if test w then score + bonus else add_once test rest bonus score
  end.

Definition add_each (test : string -> bool) (words : list string) (bonus score : Q) : Q :=
  fold_left (fun sc w => if test w then sc + bonus else sc) words score.

Definition bold_indicators : list string :=
  ["fact"; "truth"; "secret"; "never"; "always"; "everyone"; "nobody"].

Definition story_starters : list string :=
  ["when i"; "i remember"; "one day"; "last year"; "recently"].

Definition _calculate_hook_score (text : string) (start_time : Q) : Q :=
  let score := 50 in
  let score :=
    if Qlt_le_dec start_time 30 then score + 15
    else if Qlt_le_dec start_time 60 then score + 10
    else score in
  let score := if contains "?" text then score + 10 else score in
  let score := add_once (fun indicator => contains indicator (lower text))
                        bold_indicators 5 score in
  let score := if has_digit text then score + 5 else score in
  let score := add_once (fun starter => startswith (lower text) starter)
                        story_starters 10 score in
  min2 100 (max2 0 score).

Definition emotional_words : list string :=
  ["amazing"; "incredible"; "shocking"; "surprising"; "unbelievable";
   "love"; "hate"; "angry"; "happy"; "sad"; "excited"; "worried";
   "perfect"; "terrible"; "awesome"; "awful"; "fantastic"].

Definition cta_words : list string :=
  ["subscribe"; "follow"; "like"; "comment"; "share"; "check out"].

Definition controversial : list string :=
  ["controversial"; "debate"; "argue"; "wrong"; "right"; "truth"].

(** The score of [_calculate_engagement_score] before it is clamped. *)
Definition engagement_total (text : string) : Q :=
  let score := 50 in
  let score := add_each (fun word => contains word (lower text)) emotional_words 3 score in
  let score := add_each (fun word => contains word (lower text)) cta_words 5 score in
  let score := add_each (fun word => contains word (lower text)) controversial 5 score in
  score.

Definition _calculate_engagement_score (text : string) : Q :=
  min2 100 (max2 0 (engagement_total text)).

Definition trending : list string :=
  ["ai"; "crypto"; "bitcoin"; "money"; "success"; "motivation"].

(** The score of [_calculate_viral_score] before it is clamped. *)
Definition viral_total (text : string) (hook_score engagement_score : Q) : Q :=
  let viral_score := hook_score * (4 # 10) + engagement_score * (4 # 10) + 20 in
  add_each (fun topic => contains topic (lower text)) trending 5 viral_score.

Definition _calculate_viral_score (text : string) (hook_score engagement_score : Q) : Q :=
  min2 100 (max2 0 (viral_total text hook_score engagement_score)).

Definition joy_words : list string :=
  ["happy"; "joy"; "excited"; "amazing"; "great"; "awesome"; "love"; "perfect"].

Definition anger_words : list string :=
  ["angry"; "hate"; "terrible"; "awful"; "worst"; "annoying"].

Definition surprise_words : list string :=
  ["wow"; "unbelievable"; "shocking"; "surprising"; "incredible"].

Definition initial_emotions : Emotions :=
  {| joy := 0; anger := 0; sadness := 0; fear := 0; surprise := 0; neutral := 1 |}.

(** The bodies of the three loops: 0.2 to the emotion, 0.1 off neutral. *)
Definition more_joy (e : Emotions) : Emotions :=
  {| joy := joy e + (2 # 10); anger := anger e; sadness := sadness e;
     fear := fear e; surprise := surprise e; neutral := neutral e - (1 # 10) |}.

Definition more_anger (e : Emotions) : Emotions :=
  {| joy := joy e; anger := anger e + (2 # 10); sadness := sadness e;
     fear := fear e; surprise := surprise e; neutral := neutral e - (1 # 10) |}.

Definition more_surprise (e : Emotions) : Emotions :=
  {| joy := joy e; anger := anger e; sadness := sadness e;
     fear := fear e; surprise := surprise e + (2 # 10); neutral := neutral e - (1 # 10) |}.

Definition update_each (text_lower : string) (words : list string)
           (update : Emotions -> Emotions) (e : Emotions) : Emotions :=
  fold_left (fun acc word => if contains word text_lower then update acc else acc) words e.

(** The mapping of [_detect_emotions] before it is normalised. *)
Definition raw_emotions (text : string) : Emotions :=
  let text_lower := lower text in
  let e := update_each text_lower joy_words more_joy initial_emotions in
  let e := update_each text_lower anger_words more_anger e in
  update_each text_lower surprise_words more_surprise e.

Definition _detect_emotions (text : string) : Emotions :=
  let e := raw_emotions text in
  let total := sum (emotion_values e) in
  if Qlt_le_dec 0 total then emotions_map (fun v => v / total) e else e.

Definition shift_indicators : list string :=
  ["but"; "however"; "on the other hand"; "speaking of";
   "moving on"; "let's talk about"; "another thing"].

Definition _detect_topic_shift (text context : string) : bool :=
  existsb (fun indicator => contains indicator (lower text)) shift_indicators.

Definition _analyze_segment (seg : Segment) (full_text : string) : Annotation :=
  let text := get_text seg in
  let hook := _calculate_hook_score text (get_start seg) in
  let engagement := _calculate_engagement_score text in
  let viral := _calculate_viral_score text hook engagement in
  {| hook_score := hook;
     engagement_score := engagement;
     viral_score := viral;
     emotions := _detect_emotions text;
     topic_shift := _detect_topic_shift text full_text |}.

Definition stop_words : list string :=
  ["this"; "that"; "with"; "from"; "they"; "have"; "were";
   "been"; "their"; "would"; "there"; "could"; "should"].

(** [word_freq[word] = word_freq.get(word, 0) + 1] on a dict that keeps the
    order in which its keys were first inserted. *)
Fixpoint count_word (word : string) (word_freq : list (string * nat))
  : list (string * nat) :=
  match word_freq with
  | [] => [(word, 1%nat)]
  | (k, n) :: rest =>
      if String.eqb k word then (k, S n) :: rest
      else (k, n) :: count_word word rest
  end.

Definition _extract_topics (text : string) : list string :=
  let words :=
    findall_runs (fun c => is_ascii_upper c || is_ascii_lower c) 4 (lower text) in
  let word_freq :=
    fold_left (fun freq word =>
                 if existsb (String.eqb word) stop_words then freq
                 else count_word word freq)
              words [] in
  let sorted_topics := sort_desc (fun y x => (snd x <? snd y)%nat) word_freq in
  map fst (firstn 5 sorted_topics).

Definition _extract_keywords (text : string) (segments : list Segment) : list string :=
  let topics := _extract_topics text in
  let emphasis_words :=
    flat_map (fun seg => findall_runs is_ascii_upper 3 (get_text seg)) segments in
  let keywords := dedup [] (topics ++ emphasis_words) in
  firstn 10 keywords.

Definition _generate_title (text : string) : string :=
  let sentences := split "." text in
  match sentences with
  | first :: _ =>
      let title := strip first in
      if (60 <? String.length title)%nat then take 57 title ++ "..." else title
  | [] => "Untitled Clip"
  end.

Definition window_size : Z := 30.
Definition stride : Z := 5.

(** The starts the loop of [_detect_highlights] runs over. *)
Definition window_starts (duration : Q) : list Z :=
  range 0 (int duration - window_size + 1) stride.

(** The condition of the comprehension that selects a window's segments. *)
Definition in_window (start end_ : Z) (s : AnalyzedSegment) : bool :=
  Qle_bool (inject_Z start) (get_start (segment s))
  && Qle_bool (get_end (segment s)) (inject_Z end_).

Definition window_segments (segments : list AnalyzedSegment) (start : Z)
  : list AnalyzedSegment :=
  filter (in_window start (start + window_size)) segments.

(** The dict appended for a window with the segments [inside]. *)
Definition make_highlight (start : Z) (inside : list AnalyzedSegment) : Highlight :=
  let avg_viral := mean (map (fun s => viral_score (analysis s)) inside) in
  let avg_hook := mean (map (fun s => hook_score (analysis s)) inside) in
  let avg_engagement := mean (map (fun s => engagement_score (analysis s)) inside) in
  let transcript := join " " (map (fun s => get_text (segment s)) inside) in
  let keywords := firstn 5 (_extract_keywords transcript (map segment inside)) in
  {| hl_start := start;
     hl_end := start + window_size;
     hl_title := _generate_title transcript;
     hl_description :=
       if (200 <? String.length transcript)%nat then take 200 transcript ++ "..."
       else transcript;
     hl_viral_score := round avg_viral 1;
     hl_hook_score := round avg_hook 1;
     hl_engagement_score := round avg_engagement 1;
     hl_keywords := keywords;
     hl_transcript := transcript |}.

(** One turn of the loop: a window without segments is skipped. *)
Definition window_step (segments : list AnalyzedSegment)
           (highlights : list Highlight) (start : Z) : list Highlight :=
  match window_segments segments start with
  | [] => highlights
  | inside => highlights ++ [make_highlight start inside]
  end.

(** The list [highlights] when the loop ends, before it is sorted. *)
Definition generated_highlights (segments : list AnalyzedSegment) (duration : Q)
  : list Highlight :=
  fold_left (window_step segments) (window_starts duration) [].

(** The key comparison of [highlights.sort(key=viral_score, reverse=True)]. *)
Definition more_viral (y x : Highlight) : bool :=
  if Qlt_le_dec (hl_viral_score x) (hl_viral_score y) then true else false.

Definition _detect_highlights (segments : list AnalyzedSegment) (duration : Q)
  : list Highlight :=
  firstn 10 (sort_desc more_viral (generated_highlights segments duration)).

Definition zero_emotions : Emotions :=
  {| joy := 0; anger := 0; sadness := 0; fear := 0; surprise := 0; neutral := 0 |}.

Definition add_emotions (a b : Emotions) : Emotions :=
  {| joy := joy a + joy b; anger := anger a + anger b;
     sadness := sadness a + sadness b; fear := fear a + fear b;
     surprise := surprise a + surprise b; neutral := neutral a + neutral b |}.

(** [max(d, key=d.get)]: the first key, in the order of the dict, whose
    value no other value exceeds. *)
Fixpoint argmax_from (best : Emotion * Q) (items : list (Emotion * Q)) : Emotion :=
  match items with
  | [] => fst best
  | item :: rest =>
      if Qlt_le_dec (snd best) (snd item) then argmax_from item rest
      else argmax_from best rest
  end.

Definition dominant (e : Emotions) : Emotion :=
  argmax_from (Joy, joy e) (tl (emotion_items e)).

(** The aggregate of the loop over the segments. *)
Definition aggregate_emotions (segments : list AnalyzedSegment) : Emotions :=
  fold_left (fun acc s => add_emotions acc (emotions (analysis s))) segments zero_emotions.

(** The distribution after the normalisation step. *)
Definition normalized_distribution (all_emotions : Emotions) : Emotions :=
  let total := sum (emotion_values all_emotions) in
  if Qlt_le_dec 0 total then emotions_map (fun v => round (v / total) 3) all_emotions
  else all_emotions.

Definition _analyze_sentiment (segments : list AnalyzedSegment) : Sentiment :=
  match segments with
  | [] => SentimentDefault Neutral 0
  | _ =>
      let all_emotions := normalized_distribution (aggregate_emotions segments) in
      SentimentSummary (dominant all_emotions) all_emotions
                       (joy all_emotions + surprise all_emotions * (5 # 10))
                       (anger all_emotions + sadness all_emotions + fear all_emotions)
  end.

Definition analyze_video (transcription : Transcription) (duration : Q) : AnalysisResult :=
  let segments := match tr_segments transcription with Some l => l | None => [] end in
  let full_text := match tr_text transcription with Some t => t | None => "" end in
  match segments with
  | [] =>
      {| highlights := []; topics := []; keywords := [];
         sentiment := SentimentEmpty; segment_analysis := None |}
  | _ =>
      let analyzed_segments :=
        map (fun seg => {| segment := seg; analysis := _analyze_segment seg full_text |})
            segments in
      {| highlights := _detect_highlights analyzed_segments duration;
         topics := _extract_topics full_text;
         keywords := _extract_keywords full_text segments;
         sentiment := _analyze_sentiment analyzed_segments;
         segment_analysis := Some analyzed_segments |}
  end.

End AnalysisService.

Import PyStr PyNum AnalysisService.

(** ** The clip generator

    [ClipService.auto_generate_clips] of [app/services/clip.py] reads the
    highlights stored with a video and asks for one clip per highlight.  The
    database is left out: [clip_requests] is the list of the [ClipCreate]
    values the loop builds, and [passes_validation] the constraints the
    fields of [ClipCreate] declare in [app/schemas/clip.py]. *)

Module ClipService.

Record ClipCreate := {
  clip_title : string;
  clip_description : string;
  clip_start_time : Q;
  clip_end_time : Q;
  clip_viral_score : Q;
  clip_hook_score : Q;
  clip_engagement_score : Q;
  clip_keywords : list string;
  clip_topics : list string;
  clip_transcript_segment : string
}.

(** [l[:n]], where a negative [n] counts from the end. *)
Definition slice_to {A : Type} (n : Z) (l : list A) : list A :=
  if (n <? 0)%Z then firstn (Z.to_nat (Z.of_nat (List.length l) + n)) l
  else firstn (Z.to_nat n) l.

(** [enumerate(l)] *)
Definition enumerate {A : Type} (l : list A) : list (nat * A) :=
  combine (seq 0 (List.length l)) l.

(** [str(n)] for a natural number. *)
Definition str (n : nat) : string := NilZero.string_of_uint (Nat.to_uint n).

(** The end of the clip after the adjustment of its duration. *)
Definition adjusted_end (start_time end_time min_duration max_duration : Q) : Q :=
  let duration := end_time - start_time in
  if Qlt_le_dec duration min_duration then start_time + min_duration
  else if Qlt_le_dec max_duration duration then start_time + max_duration
  else end_time.

(** The [ClipCreate] built for the highlight at index [i]. *)
Definition clip_data (min_duration max_duration : Q) (i : nat) (highlight : Highlight)
  : ClipCreate :=
  let start_time := inject_Z (hl_start highlight) in
  let end_time := inject_Z (hl_end highlight) in
  {| clip_title := "Clip " ++ str (i + 1) ++ ": " ++ hl_title highlight;
     clip_description := hl_description highlight;
     clip_start_time := start_time;
     clip_end_time := adjusted_end start_time end_time min_duration max_duration;
     clip_viral_score := hl_viral_score highlight;
     clip_hook_score := hl_hook_score highlight;
     clip_engagement_score := hl_engagement_score highlight;
     clip_keywords := hl_keywords highlight;
     clip_topics := [];
     clip_transcript_segment := hl_transcript highlight |}.

Definition clip_requests (highlights : list Highlight) (max_clips : Z)
           (min_duration max_duration : Q) : list ClipCreate :=
  map (fun ih => clip_data min_duration max_duration (fst ih) (snd ih))
      (enumerate (slice_to max_clips highlights)).

(** The field constraints of [ClipBase] and [ClipCreate]: a title of 1 to
    255 characters, a start that is not negative, a positive end, and scores
    between 0 and 100. *)
Definition score_ok (x : Q) : bool := Qle_bool 0 x && Qle_bool x 100.

Definition passes_validation (c : ClipCreate) : bool :=
  (1 <=? String.length (clip_title c))%nat
  && (String.length (clip_title c) <=? 255)%nat
  && Qle_bool 0 (clip_start_time c)
  && negb (Qle_bool (clip_end_time c) 0)
  && score_ok (clip_viral_score c)
  && score_ok (clip_hook_score c)
  && score_ok (clip_engagement_score c).

End ClipService.

(** ** Vocabulary of the properties *)

(** The documented range of a score. *)
Definition in_score_range (x : Q) : Prop := 0 <= x <= 100.

Definition segment_scores_in_range (s : AnalyzedSegment) : Prop :=
  in_score_range (hook_score (analysis s))
  /\ in_score_range (engagement_score (analysis s))
  /\ in_score_range (viral_score (analysis s)).

Definition highlight_scores_in_range (h : Highlight) : Prop :=
  in_score_range (hl_viral_score h)
  /\ in_score_range (hl_hook_score h)
  /\ in_score_range (hl_engagement_score h).

(** The list under ["segment_analysis"], empty when the key is absent. *)
Definition analyzed_segments_of (r : AnalysisResult) : list AnalyzedSegment :=
  match segment_analysis r with Some l => l | None => [] end.

(** How many words of a vocabulary occur in the lower-cased text. *)
Definition matches (words : list string) (text : string) : nat :=
  List.length (filter (fun word => contains word (lower text)) words).

(** The trending topics other than "ai", the calls to action other than "like". *)
Definition trending_but_ai : list string :=
  ["crypto"; "bitcoin"; "money"; "success"; "motivation"].

Definition cta_words_but_like : list string :=
  ["subscribe"; "follow"; "comment"; "share"; "check out"].

(** A number of matches as a rational. *)
Definition count (n : nat) : Q := inject_Z (Z.of_nat n).

(** How many emotion words of the three vocabularies occur in a text. *)
Definition signals (text : string) : nat :=
  (matches joy_words text + matches anger_words text + matches surprise_words text)%nat.

Definition emotions_nonnegative (e : Emotions) : Prop :=
  0 <= joy e /\ 0 <= anger e /\ 0 <= sadness e
  /\ 0 <= fear e /\ 0 <= surprise e /\ 0 <= neutral e.

(** Field by field equality of two emotion mappings. *)
Definition emotions_eq (a b : Emotions) : Prop :=
  joy a == joy b /\ anger a == anger b /\ sadness a == sadness b
  /\ fear a == fear b /\ surprise a == surprise b /\ neutral a == neutral b.

(** The emotion mapping of a text as the specification describes it: no
    negative value, the values summing to 1 when a signal fired, and the
    default mapping otherwise. *)
Definition emotions_as_specified (text : string) : Prop :=
  let e := _detect_emotions text in
  emotions_nonnegative e
  /\ ((0 < signals text)%nat -> sum (emotion_values e) == 1)
  /\ (signals text = 0%nat -> emotions_eq e initial_emotions).

(** A text with eleven emotion words: eight of joy and three of anger. *)
Definition eleven_feelings : string :=
  "happy joy excited amazing great awesome love perfect angry hate terrible".

(** One segment with that text, in a 30 second recording. *)
Definition feelings_transcription : Transcription :=
  {| tr_segments :=
       Some [{| seg_start := Some 0; seg_end := Some 5; seg_text := Some eleven_feelings |}];
     tr_text := Some eleven_feelings |}.

(** The numbers [analyze_video] computes and returns: the scores and emotion
    values of the analysed segments, the scores of the highlights, and the
    numbers of the sentiment entry. *)
Definition annotation_numbers (a : Annotation) : list Q :=
  [hook_score a; engagement_score a; viral_score a] ++ emotion_values (emotions a).

Definition highlight_numbers (h : Highlight) : list Q :=
  [hl_viral_score h; hl_hook_score h; hl_engagement_score h].

Definition sentiment_numbers (s : Sentiment) : list Q :=
  match s with
  | SentimentEmpty => []
  | SentimentDefault _ score => [score]
  | SentimentSummary _ distribution positive negative =>
      emotion_values distribution ++ [positive; negative]
  end.

Definition result_numbers (r : AnalysisResult) : list Q :=
  flat_map (fun s => annotation_numbers (analysis s)) (analyzed_segments_of r)
  ++ flat_map highlight_numbers (highlights r)
  ++ sentiment_numbers (sentiment r).

(** The result as the specification describes it: every score in its range
    and no negative number anywhere in the result. *)
Definition result_as_specified (t : Transcription) (duration : Q) : Prop :=
  let r := analyze_video t duration in
  Forall segment_scores_in_range (analyzed_segments_of r)
  /\ Forall highlight_scores_in_range (highlights r)
  /\ Forall (Qle 0) (result_numbers r).

(** The sum of the values of ["distribution"], 0 when the key is absent. *)
Definition distribution_sum (s : Sentiment) : Q :=
  match sentiment_distribution s with
  | Some d => sum (emotion_values d)
  | None => 0
  end.

(** The aggregate emotion signal of the analysed segments. *)
Definition aggregate_signal (segments : list AnalyzedSegment) : Q :=
  sum (emotion_values (aggregate_emotions segments)).

(** The sentiment distribution as the specification describes it: when the
    aggregate signal is not zero, its values sum to 1 within 1e-6. *)
Definition distribution_as_specified (t : Transcription) (duration : Q) : Prop :=
  let r := analyze_video t duration in
  ~ aggregate_signal (analyzed_segments_of r) == 0 ->
  Qabs (distribution_sum (sentiment r) - 1) <= 1 # 1000000.

(** One segment in which a joy word and an anger word are found. *)
Definition mixed_transcription : Transcription :=
  {| tr_segments :=
       Some [{| seg_start := Some 0; seg_end := Some 5; seg_text := Some "happy angry" |}];
     tr_text := Some "happy angry" |}.

(** The order of the returned highlights: never a lower viral score first,
    and among equal viral scores the earlier window first. *)
Definition ranked_before (a b : Highlight) : Prop :=
  hl_viral_score b <= hl_viral_score a
  /\ (hl_viral_score a == hl_viral_score b -> (hl_start a < hl_start b)%Z).

(** The order in which the loop generates the windows. *)
Definition earlier_window (a b : Highlight) : Prop := (hl_start a < hl_start b)%Z.

(** What one window adds to the list of highlights. *)
Definition window_highlight (segments : list AnalyzedSegment) (start : Z) : list Highlight :=
  match window_segments segments start with
  | [] => []
  | inside => [make_highlight start inside]
  end.

(** The part of a text before its first full stop. *)
Fixpoint first_sentence (s : string) : string :=
  match s with
  | EmptyString => EmptyString
  | String c rest => if Ascii.eqb c "." then EmptyString else String c (first_sentence rest)
  end.

(** Sample inputs. *)
Definition secret_text : string := "What if I told you a secret?".

Definition secret_transcription : Transcription :=
  {| tr_segments :=
       Some [{| seg_start := Some 5; seg_end := Some 10; seg_text := Some secret_text |}];
     tr_text := Some secret_text |}.

Definition empty_transcription : Transcription :=
  {| tr_segments := Some []; tr_text := Some "" |}.

(** One segment without text, in a 30 second recording. *)
Definition silent_transcription : Transcription :=
  {| tr_segments := Some [{| seg_start := Some 0; seg_end := Some 5; seg_text := Some "" |}];
     tr_text := Some "" |}.

(** A plain segment at the start and a later one with a question and a
    trending topic, in a 70 second recording. *)
Definition late_money_transcription : Transcription :=
  {| tr_segments :=
       Some [{| seg_start := Some 0; seg_end := Some 5; seg_text := Some "hello" |};
             {| seg_start := Some 36; seg_end := Some 40; seg_text := Some "money?" |}];
     tr_text := Some "hello money?" |}.

(** Two analysed segments of a 30 second recording: the first lies inside
    the window that starts at 0, the second starts inside it and ends after
    it. *)
Definition inside_segment : AnalyzedSegment :=
  let seg := {| seg_start := Some 0; seg_end := Some 5; seg_text := Some "first" |} in
  {| segment := seg; analysis := _analyze_segment seg "first second" |}.

Definition overlapping_segment : AnalyzedSegment :=
  let seg := {| seg_start := Some 28; seg_end := Some 33; seg_text := Some "second" |} in
  {| segment := seg; analysis := _analyze_segment seg "first second" |}.

(** The parts of the hook score: what the start adds, and what the text adds. *)
Definition early_bonus (start_time : Q) : Q :=
  if Qlt_le_dec start_time 30 then 15
  else if Qlt_le_dec start_time 60 then 10
  else 0.

Definition hook_text_bonus (text : string) : Q :=
  (if contains "?" text then 10 else 0)
  + (if existsb (fun w => contains w (lower text)) bold_indicators then 5 else 0)
  + (if has_digit text then 5 else 0)
  + (if existsb (fun w => startswith (lower text) w) story_starters then 10 else 0).

(** The engagement score before clamping, by the words found. *)
Definition engagement_points (text : string) : Q :=
  50 + 3 * count (matches emotional_words text)
  + 5 * count (matches cta_words text)
  + 5 * count (matches controversial text).

(** Tighter ranges than the documented one. *)
Definition between_scores (lo hi : Z) (x : Q) : Prop := inject_Z lo <= x <= inject_Z hi.

Definition segment_scores_tight (s : AnalyzedSegment) : Prop :=
  between_scores 50 95 (hook_score (analysis s))
  /\ between_scores 50 100 (engagement_score (analysis s))
  /\ between_scores 60 100 (viral_score (analysis s)).

Definition highlight_scores_tight (h : Highlight) : Prop :=
  between_scores 60 100 (hl_viral_score h)
  /\ between_scores 50 95 (hl_hook_score h)
  /\ between_scores 50 100 (hl_engagement_score h).

(** Every character of a string passes a test. *)
Fixpoint all_chars (p : ascii -> bool) (s : string) : bool :=
  match s with
  | EmptyString => true
  | String c rest => p c && all_chars p rest
  end.

(** A topic: at least four lower-case ASCII letters, and no stop word. *)
Definition topic_word (w : string) : Prop :=
  (4 <= String.length w)%nat
  /\ all_chars is_ascii_lower w = true
  /\ ~ In w stop_words.


(** Two analysed segments of a 100 second recording that fill twelve
    windows: six around the first, six around the second. *)
Definition twelve_windows : list AnalyzedSegment :=
  map (fun seg => {| segment := seg; analysis := _analyze_segment seg "hello money?" |})
      [{| seg_start := Some 30; seg_end := Some 35; seg_text := Some "hello" |};
       {| seg_start := Some 65; seg_end := Some 70; seg_text := Some "money?" |}].

(** Whether the window that starts at [start] holds a segment. *)
Definition nonempty_window (segments : list AnalyzedSegment) (start : Z) : bool :=
  match window_segments segments start with
  | [] => false
  | _ => true
  end.

(** The first character, if there is one, is not white space. *)
Definition starts_clean (s : string) : Prop :=
  match s with
  | EmptyString => True
  | String c _ => is_space c = false
  end.

(** The test "is not a full stop". *)
Definition not_full_stop (c : ascii) : bool := negb (Ascii.eqb c ".").

(** The value an emotion mapping gives to a label. *)
Definition emotion_value (e : Emotions) (k : Emotion) : Q :=
  match k with
  | Joy => joy e
  | Anger => anger e
  | Sadness => sadness e
  | Fear => fear e
  | Surprise => surprise e
  | Neutral => neutral e
  end.

(** An emotion mapping in which nothing feeds sadness and fear. *)
Definition no_sadness_no_fear (e : Emotions) : Prop :=
  0 <= joy e /\ sadness e == 0 /\ fear e == 0.

(** [word_freq.get(k, 0)] *)
Fixpoint frequency (word_freq : list (string * nat)) (k : string) : nat :=
  match word_freq with
  | [] => 0%nat
  | (k', n) :: rest => if String.eqb k' k then n else frequency rest k
  end.

(** The words [_extract_topics] finds in a text, and how often a word is
    among them. *)
Definition tokens (text : string) : list string :=
  findall_runs (fun c => is_ascii_upper c || is_ascii_lower c) 4 (lower text).

Definition occurrences (text word : string) : nat :=
  count_occ string_dec (tokens text) word.

(** The frequency table [_extract_topics] builds from the words. *)
Definition count_words (words : list string) (acc : list (string * nat))
  : list (string * nat) :=
  fold_left (fun freq word =>
               if existsb (String.eqb word) stop_words then freq
               else count_word word freq)
            words acc.

(** A clip request for the window of a highlight of the analyser: valid for
    [ClipCreate], and 30 seconds long. *)
Definition good_clip_request (c : ClipService.ClipCreate) : Prop :=
  ClipService.passes_validation c = true
  /\ ClipService.clip_end_time c - ClipService.clip_start_time c == 30.

(** ** Scores *)

Lemma max2_spec (a b : Q) : a <= max2 a b /\ b <= max2 a b.
Proof.
  unfold max2. destruct (Qlt_le_dec a b); split; lra.
Qed.

Lemma clamp_range (x : Q) : in_score_range (min2 100 (max2 0 x)).
Proof.
  unfold in_score_range, min2.
  destruct (max2_spec 0 x) as [H0 _].
  destruct (Qlt_le_dec (max2 0 x) 100); lra.
Qed.

Lemma clamp_id (x : Q) : 0 <= x <= 100 -> min2 100 (max2 0 x) == x.
Proof.
  intros [H0 H1]. unfold min2, max2.
  destruct (Qlt_le_dec 0 x); destruct (Qlt_le_dec _ 100); lra.
Qed.

(** C7.  For the segment [{start: 5, end: 10, text: "What if I told you a
    secret?"}] the hook score is exactly 80: the base 50, 15 because the
    start is below 30, 10 for the question mark, 5 for the bold word
    "secret" (the first word of the vocabulary that occurs in the text);
    the text has no digit and opens with no story starter, and clamping
    leaves 80 as it is.  The score is the same inside [analyze_video] run on
    the transcript that holds this segment alone, with a duration of 15. *)
Theorem hook_score_secret_scenario :
  _calculate_hook_score secret_text 5 == 80
  /\ 50 + 15 + 10 + 5 == 80
  /\ 5 < 30
  /\ contains "?" secret_text = true
  /\ filter (fun w => contains w (lower secret_text)) bold_indicators = ["secret"]
  /\ has_digit secret_text = false
  /\ filter (fun w => startswith (lower secret_text) w) story_starters = []
  /\ min2 100 (max2 0 80) == 80
  /\ map (fun s => hook_score (analysis s))
         (analyzed_segments_of (analyze_video secret_transcription 15)) = [80].
Proof.
  repeat split; try reflexivity; vm_compute; reflexivity.
Qed.

(** ** The empty transcript *)

(** C1, as the code implements it.  When the transcript has no segments,
    [analyze_video] returns, for every duration and full text, the dict of
    its early return: the highlights, topics and keywords are empty, the
    sentiment entry is the empty mapping, and there is no
    ["segment_analysis"] entry. *)
Theorem analyze_video_no_segments (t : Transcription) (duration : Q) :
  tr_segments t = Some [] \/ tr_segments t = None ->
  analyze_video t duration =
    {| highlights := []; topics := []; keywords := [];
       sentiment := SentimentEmpty; segment_analysis := None |}.
Proof.
  intros [H | H]; unfold analyze_video; rewrite H; reflexivity.
Qed.

Lemma analyze_video_no_segments_witness :
  analyze_video empty_transcription 0 =
    {| highlights := []; topics := []; keywords := [];
       sentiment := SentimentEmpty; segment_analysis := None |}.
Proof.
  apply (analyze_video_no_segments empty_transcription 0).
  left. reflexivity.
Defined.

(** C1, as the specification states it, fails: for the empty segment list and a
    duration of 0 the sentiment entry has no ["overall"] key, so it is not
    ["neutral"]. *)
Lemma analyze_video_empty_overall_not_neutral :
  sentiment_overall (sentiment (analyze_video empty_transcription 0)) <> Some Neutral.
Proof.
  vm_compute. discriminate.
Qed.

(** The default of [_analyze_sentiment] for an empty list is neutral, but
    [analyze_video] never calls it with one. *)
Lemma analyze_sentiment_empty :
  sentiment_overall (_analyze_sentiment []) = Some Neutral.
Proof. reflexivity. Qed.

(** ** Window starts *)

Lemma range_In (start stop step x : Z) :
  (0 < step)%Z ->
  In x (range start stop step) <->
  (start <= x < stop)%Z /\ ((x - start) mod step = 0)%Z.
Proof.
  intros Hstep. unfold range. rewrite in_map_iff. split.
  - intros [i [Hx Hi]]. apply in_seq in Hi. subst x.
    assert (Hi' : (Z.of_nat i < (stop - start + step - 1) / step)%Z) by lia.
    assert (Hm : (Z.of_nat i * step + step <= stop - start + step - 1)%Z).
    { pose proof (Z.mul_div_le (stop - start + step - 1) step Hstep). nia. }
    split; [nia |].
    replace (start + Z.of_nat i * step - start)%Z with (Z.of_nat i * step)%Z by lia.
    apply Z.mod_mul. lia.
  - intros [[Hlo Hhi] Hmod].
    apply Z.mod_divide in Hmod; [| lia]. destruct Hmod as [q Hq].
    assert (Hq0 : (0 <= q)%Z) by nia.
    exists (Z.to_nat q). split; [lia |].
    apply in_seq. split; [lia |]. simpl.
    assert (Hq1 : (q + 1 <= (stop - start + step - 1) / step)%Z); [| lia].
    apply Z.div_le_lower_bound; nia.
Qed.

(** The starts are the multiples of the stride from 0 on for which the whole
    window fits into the truncated duration. *)
Lemma window_starts_In (duration : Q) (x : Z) :
  In x (window_starts duration) <->
  (0 <= x)%Z /\ (x mod 5 = 0)%Z /\ (x + 30 <= int duration)%Z.
Proof.
  unfold window_starts, window_size, stride. rewrite range_In by lia.
  rewrite Z.sub_0_r. lia.
Qed.

(** C2, as the code implements it.  For a duration of 100 the loop runs over the
    starts 0, 5, 10, ..., 70: the last start is 100 - 30 itself, and there
    are 15 windows before the empty ones are dropped. *)
Theorem window_starts_100 :
  window_starts 100 = [0; 5; 10; 15; 20; 25; 30; 35; 40; 45; 50; 55; 60; 65; 70]%Z
  /\ List.length (window_starts 100) = 15%nat.
Proof.
  split; reflexivity.
Qed.

(** C2, as the specification states it, fails: the starts do not stop at 65 and there
    are more than 14 of them. *)
Lemma window_starts_100_not_14 :
  window_starts 100 <> [0; 5; 10; 15; 20; 25; 30; 35; 40; 45; 50; 55; 60; 65]%Z
  /\ ~ (List.length (window_starts 100) <= 14)%nat.
Proof.
  split.
  - vm_compute. discriminate.
  - vm_compute. lia.
Qed.


(** ** Titles *)

Lemma split_first_sentence (text : string) :
  exists rest, split "." text = first_sentence text :: rest.
Proof.
  induction text as [| c text IH]; simpl.
  - exists []. reflexivity.
  - destruct (Ascii.eqb c ".").
    + eexists. reflexivity.
    + destruct IH as [rest ->]. exists rest. reflexivity.
Qed.

(** [str.split] never returns an empty list, so the last line of
    [_generate_title] is never reached. *)
Lemma split_nonempty (sep : ascii) (text : string) : split sep text <> [].
Proof.
  destruct text as [| c text]; simpl; [discriminate |].
  destruct (Ascii.eqb c sep); [discriminate |].
  destruct (split sep text); discriminate.
Qed.

(** The title is the stripped first sentence, cut to 57 characters and an
    ellipsis when it is longer than 60. *)
Lemma generate_title_first_sentence (text : string) :
  _generate_title text =
    let title := strip (first_sentence text) in
    if (60 <? String.length title)%nat then take 57 title ++ "..." else title.
Proof.
  unfold _generate_title.
  destruct (split_first_sentence text) as [rest ->]. reflexivity.
Qed.

(** C8, at the input where the code departs from it.  A transcript without
    content gets the empty title, not "Untitled Clip"; such a transcript
    reaches [_generate_title] from [analyze_video] when the segments of a
    window have no text. *)
Theorem generate_title_without_content :
  _generate_title "" = ""
  /\ _generate_title "" <> "Untitled Clip"
  /\ _generate_title "   " = ""
  /\ map hl_title (highlights (analyze_video silent_transcription 30)) = [""].
Proof.
  repeat split; try reflexivity.
  vm_compute. discriminate.
Qed.

(** ** Stable sorting *)

Lemma In_firstn {A : Type} (n : nat) (l : list A) (x : A) :
  In x (firstn n l) -> In x l.
Proof.
  revert l. induction n as [| n IH]; intros [| y l]; simpl; try tauto.
  intros [H | H]; [left | right]; auto.
Qed.

Lemma StronglySorted_firstn {A : Type} (R : A -> A -> Prop) (n : nat) (l : list A) :
  StronglySorted R l -> StronglySorted R (firstn n l).
Proof.
  revert l. induction n as [| n IH]; intros l Hl; simpl; [constructor |].
  destruct l as [| x l]; [constructor |].
  apply StronglySorted_inv in Hl. destruct Hl as [Hl Hx].
  constructor; [apply IH; exact Hl |].
  rewrite Forall_forall in *. intros y Hy. apply Hx. eapply In_firstn; eauto.
Qed.

Section StableSortFacts.
Context {A : Type} (gtb : A -> A -> bool).

Lemma insert_desc_perm (x : A) (l : list A) :
  Permutation (x :: l) (insert_desc gtb x l).
Proof.
  induction l as [| y l IH]; simpl; [reflexivity |].
  destruct (gtb y x); [| reflexivity].
  rewrite perm_swap. apply perm_skip. exact IH.
Qed.

Lemma sort_desc_perm (l : list A) : Permutation l (sort_desc gtb l).
Proof.
  induction l as [| x l IH]; simpl; [reflexivity |].
  rewrite <- insert_desc_perm. apply perm_skip. exact IH.
Qed.

Lemma sort_desc_In (l : list A) (x : A) : In x (sort_desc gtb l) <-> In x l.
Proof.
  split; apply Permutation_in; [symmetry |]; apply sort_desc_perm.
Qed.

(** [before] is the order of the list that is sorted, [ranked] the order of
    the result: a strictly greater key ranks first, and where the key of the
    later element is not greater the earlier element stays first. *)
Context (before ranked : A -> A -> Prop).
Hypothesis greater_first : forall y x, gtb y x = true -> ranked y x.
Hypothesis earlier_first : forall x y, gtb y x = false -> before x y -> ranked x y.
Hypothesis not_greater_below :
  forall x y z, gtb y x = false -> ranked y z -> gtb z x = false.

Lemma insert_desc_sorted (x : A) (l : list A) :
  StronglySorted ranked l -> Forall (before x) l ->
  StronglySorted ranked (insert_desc gtb x l).
Proof.
  induction l as [| y l IH]; intros Hs Hb; simpl.
  - constructor; constructor.
  - apply StronglySorted_inv in Hs. destruct Hs as [Hs Hy].
    pose proof (Forall_inv Hb) as Hxy. pose proof (Forall_inv_tail Hb) as Hb'.
    destruct (gtb y x) eqn:Hgt.
    + constructor; [apply IH; assumption |].
      eapply Permutation_Forall; [apply insert_desc_perm |].
      constructor; [apply greater_first; exact Hgt | exact Hy].
    + constructor; [constructor; assumption |].
      constructor; [apply earlier_first; assumption |].
      rewrite Forall_forall in *. intros z Hz.
      apply earlier_first; [| apply Hb'; exact Hz].
      eapply not_greater_below; [exact Hgt | apply Hy; exact Hz].
Qed.

Lemma sort_desc_stable (l : list A) :
  StronglySorted before l -> StronglySorted ranked (sort_desc gtb l).
Proof.
  induction l as [| x l IH]; intros Hl; simpl; [constructor |].
  apply StronglySorted_inv in Hl. destruct Hl as [Hl Hx].
  apply insert_desc_sorted; [apply IH; exact Hl |].
  eapply Permutation_Forall; [apply sort_desc_perm | exact Hx].
Qed.

End StableSortFacts.


(** ** The generated windows *)

Lemma generated_flat_map (segments : list AnalyzedSegment) (starts : list Z)
      (acc : list Highlight) :
  fold_left (window_step segments) starts acc
  = (acc ++ flat_map (window_highlight segments) starts)%list.
Proof.
  revert acc. induction starts as [| st starts IH]; intros acc; simpl.
  - rewrite app_nil_r. reflexivity.
  - rewrite IH. unfold window_step, window_highlight.
    destruct (window_segments segments st); [reflexivity |].
    rewrite <- app_assoc. reflexivity.
Qed.

Lemma window_highlight_In (segments : list AnalyzedSegment) (start : Z) (h : Highlight) :
  In h (window_highlight segments start) <->
  window_segments segments start <> []
  /\ h = make_highlight start (window_segments segments start).
Proof.
  unfold window_highlight.
  destruct (window_segments segments start) as [| s inside]; simpl.
  - split; [tauto | intros [H _]; apply H; reflexivity].
  - split.
    + intros [H | []]. split; [discriminate | symmetry; exact H].
    + intros [_ H]. left. symmetry. exact H.
Qed.

Lemma generated_highlights_In (segments : list AnalyzedSegment) (duration : Q)
      (h : Highlight) :
  In h (generated_highlights segments duration) <->
  exists start,
    In start (window_starts duration)
    /\ window_segments segments start <> []
    /\ h = make_highlight start (window_segments segments start).
Proof.
  unfold generated_highlights. rewrite generated_flat_map. simpl.
  rewrite in_flat_map. split.
  - intros [st [Hst Hh]]. exists st. split; [exact Hst |].
    apply window_highlight_In. exact Hh.
  - intros [st [Hst Hh]]. exists st. split; [exact Hst |].
    apply window_highlight_In. exact Hh.
Qed.

Lemma seq_sorted (start len : nat) : StronglySorted lt (seq start len).
Proof.
  revert start. induction len as [| len IH]; intros start; simpl; constructor.
  - apply IH.
  - rewrite Forall_forall. intros x Hx. apply in_seq in Hx. lia.
Qed.

Lemma StronglySorted_map {A B : Type} (R : A -> A -> Prop) (S : B -> B -> Prop)
      (f : A -> B) (l : list A) :
  (forall x y, R x y -> S (f x) (f y)) ->
  StronglySorted R l -> StronglySorted S (map f l).
Proof.
  intros Hf. induction 1 as [| x l Hl IH Hx]; simpl; constructor; [exact IH |].
  rewrite Forall_forall in *. intros y Hy.
  apply in_map_iff in Hy. destruct Hy as [z [<- Hz]]. apply Hf, Hx, Hz.
Qed.

Lemma range_sorted (start stop step : Z) :
  (0 < step)%Z -> StronglySorted Z.lt (range start stop step).
Proof.
  intros Hstep. unfold range.
  apply StronglySorted_map with (R := lt); [| apply seq_sorted].
  intros x y Hxy. nia.
Qed.

Lemma window_highlight_start (segments : list AnalyzedSegment) (start : Z) (h : Highlight) :
  In h (window_highlight segments start) -> hl_start h = start.
Proof.
  intros H. apply window_highlight_In in H. destruct H as [_ ->]. reflexivity.
Qed.

Lemma flat_map_windows_sorted (segments : list AnalyzedSegment) (starts : list Z) :
  StronglySorted Z.lt starts ->
  StronglySorted earlier_window (flat_map (window_highlight segments) starts).
Proof.
  induction 1 as [| st starts Hs IH Hst]; simpl; [constructor |].
  destruct (window_highlight segments st) as [| h more] eqn:Hw; [exact IH |].
  assert (Hh : hl_start h = st).
  { apply (window_highlight_start segments). rewrite Hw. left. reflexivity. }
  assert (more = []) as ->.
  { unfold window_highlight in Hw. destruct (window_segments segments st); congruence. }
  simpl. constructor; [exact IH |].
  rewrite Forall_forall in *. intros h' Hh'.
  apply in_flat_map in Hh'. destruct Hh' as [st' [Hst' Hin]].
  apply window_highlight_start in Hin. unfold earlier_window.
  rewrite Hh, Hin. apply Hst, Hst'.
Qed.

(** The loop appends the windows by increasing start. *)
Lemma generated_highlights_sorted (segments : list AnalyzedSegment) (duration : Q) :
  StronglySorted earlier_window (generated_highlights segments duration).
Proof.
  unfold generated_highlights. rewrite generated_flat_map. simpl.
  apply flat_map_windows_sorted. apply range_sorted. reflexivity.
Qed.

(** ** Ranking *)

Lemma more_viral_true (y x : Highlight) :
  more_viral y x = true <-> hl_viral_score x < hl_viral_score y.
Proof.
  unfold more_viral. destruct (Qlt_le_dec _ _); split; intros; try easy; lra.
Qed.

Lemma more_viral_false (y x : Highlight) :
  more_viral y x = false <-> hl_viral_score y <= hl_viral_score x.
Proof.
  unfold more_viral. destruct (Qlt_le_dec _ _); split; intros; try easy; lra.
Qed.

Lemma detect_highlights_ranked (segments : list AnalyzedSegment) (duration : Q) :
  (List.length (_detect_highlights segments duration) <= 10)%nat
  /\ StronglySorted ranked_before (_detect_highlights segments duration).
Proof.
  unfold _detect_highlights. split.
  - rewrite length_firstn. lia.
  - apply StronglySorted_firstn.
    apply sort_desc_stable with (before := earlier_window).
    + intros y x H. apply more_viral_true in H. split; [lra |].
      intros Heq. lra.
    + intros x y H Hb. apply more_viral_false in H. split; [exact H |].
      intros _. exact Hb.
    + intros x y z H [Hzy _]. apply more_viral_false in H.
      apply more_viral_false. lra.
    + apply generated_highlights_sorted.
Qed.

(** The six windows around the later segment (viral score 73) come before
    the window of the first segment (66), and among themselves by start. *)
Example ranking_late_money :
  map hl_start (highlights (analyze_video late_money_transcription 70))
  = [10; 15; 20; 25; 30; 35; 0]%Z
  /\ Forall2 Qeq
       (map hl_viral_score (highlights (analyze_video late_money_transcription 70)))
       [73; 73; 73; 73; 73; 73; 66].
Proof.
  split; [reflexivity |].
  vm_compute. repeat constructor.
Qed.

(** C6.  Whatever the transcript and the duration, the highlights that
    [analyze_video] returns are at most 10, are non-increasing in viral
    score, and among highlights of equal viral score the window generated
    first, the one with the earlier start, comes first. *)
Theorem highlights_ranked (t : Transcription) (duration : Q) :
  (List.length (highlights (analyze_video t duration)) <= 10)%nat
  /\ StronglySorted ranked_before (highlights (analyze_video t duration)).
Proof.
  unfold analyze_video.
  destruct (match tr_segments t with Some l => l | None => [] end) as [| seg segs].
  - simpl. split; [lia | constructor].
  - cbn [highlights]. apply detect_highlights_ranked.
Qed.

(** ** Score ranges *)

Lemma analyze_segment_scores (seg : Segment) (full_text : string) :
  segment_scores_in_range {| segment := seg; analysis := _analyze_segment seg full_text |}.
Proof.
  unfold segment_scores_in_range, _analyze_segment; simpl.
  repeat split; apply clamp_range.
Qed.

Lemma fold_plus_bounds (l : list Q) (a : Q) :
  Forall in_score_range l ->
  a <= fold_left Qplus l a
  /\ fold_left Qplus l a <= a + 100 * inject_Z (Z.of_nat (List.length l)).
Proof.
  intros Hl. revert a. induction Hl as [| x l [Hx0 Hx1] _ IH]; intros a.
  - simpl. split; [lra |].
    setoid_replace (inject_Z 0) with 0 by reflexivity. lra.
  - cbn [fold_left List.length]. destruct (IH (a + x)) as [IH0 IH1].
    rewrite Nat2Z.inj_succ. unfold Z.succ. rewrite inject_Z_plus.
    setoid_replace (inject_Z 1) with 1 by reflexivity.
    split; lra.
Qed.

Lemma mean_range (l : list Q) :
  l <> [] -> Forall in_score_range l -> in_score_range (mean l).
Proof.
  intros Hne Hl. unfold mean, sum.
  destruct (fold_plus_bounds l 0 Hl) as [H0 H1].
  assert (Hn : 0 < inject_Z (Z.of_nat (List.length l))).
  { destruct l as [| x l]; [congruence |].
    replace 0 with (inject_Z 0) by reflexivity. rewrite <- Zlt_Qlt.
    simpl List.length. lia. }
  split.
  - apply Qle_shift_div_l; [exact Hn | lra].
  - apply Qle_shift_div_r; [exact Hn | lra].
Qed.

(** Rounding to an integer stays between integer bounds. *)
Lemma round_half_even_bounds (x : Q) (a b : Z) :
  inject_Z a <= x -> x <= inject_Z b ->
  (a <= round_half_even x <= b)%Z.
Proof.
  intros Ha Hb.
  assert (Hfa : (a <= Qfloor x)%Z).
  { rewrite <- (Qfloor_Z a). apply Qfloor_resp_le. exact Ha. }
  assert (Hfb : (Qfloor x <= b)%Z).
  { rewrite <- (Qfloor_Z b). apply Qfloor_resp_le. exact Hb. }
  pose proof (Qfloor_le x) as Hfl.
  assert (Hup : 0 < x - inject_Z (Qfloor x) -> (Qfloor x + 1 <= b)%Z).
  { intros Hr. assert (Hlt : inject_Z (Qfloor x) < inject_Z b) by lra.
    rewrite <- Zlt_Qlt in Hlt. lia. }
  unfold round_half_even.
  destruct (Qlt_le_dec (x - inject_Z (Qfloor x)) (1 # 2)) as [H1 | H1]; [lia |].
  assert (Hpos : 0 < x - inject_Z (Qfloor x)) by lra.
  specialize (Hup Hpos).
  destruct (Qlt_le_dec (1 # 2) (x - inject_Z (Qfloor x))); [lia |].
  destruct (Z.even (Qfloor x)); lia.
Qed.

Lemma round1_range (x : Q) : in_score_range x -> in_score_range (round x 1).
Proof.
  intros [H0 H1]. unfold round.
  change (inject_Z (10 ^ Z.of_nat 1)) with (inject_Z 10).
  destruct (round_half_even_bounds (x * inject_Z 10) 0 1000) as [Hlo Hhi].
  - change (inject_Z 0) with 0. change (inject_Z 10) with 10. lra.
  - change (inject_Z 1000) with 1000. change (inject_Z 10) with 10. lra.
  - rewrite Zle_Qle in Hlo, Hhi.
    change (inject_Z 0) with 0 in Hlo. change (inject_Z 1000) with 1000 in Hhi.
    change (inject_Z 10) with 10 in *.
    split.
    + apply Qle_shift_div_l; lra.
    + apply Qle_shift_div_r; lra.
Qed.

Lemma make_highlight_range (start : Z) (inside : list AnalyzedSegment) :
  inside <> [] -> Forall segment_scores_in_range inside ->
  highlight_scores_in_range (make_highlight start inside).
Proof.
  intros Hne Hin. unfold highlight_scores_in_range, make_highlight; simpl.
  assert (Hm : forall f : AnalyzedSegment -> Q,
             (forall s, segment_scores_in_range s -> in_score_range (f s)) ->
             in_score_range (round (mean (map f inside)) 1)).
  { intros f Hf. apply round1_range, mean_range.
    - destruct inside; [congruence | discriminate].
    - rewrite Forall_map. eapply Forall_impl; [exact Hf | exact Hin]. }
  split; [| split]; apply Hm; intros s (Hh & He & Hv); assumption.
Qed.

Lemma detect_highlights_range (segments : list AnalyzedSegment) (duration : Q) :
  Forall segment_scores_in_range segments ->
  Forall highlight_scores_in_range (_detect_highlights segments duration).
Proof.
  intros Hs. rewrite Forall_forall. intros h Hh.
  unfold _detect_highlights in Hh. apply In_firstn in Hh.
  apply sort_desc_In in Hh. apply generated_highlights_In in Hh.
  destruct Hh as [start [_ [Hne ->]]].
  apply make_highlight_range; [exact Hne |].
  unfold window_segments. rewrite Forall_forall in *. intros s Hin.
  apply filter_In in Hin. apply Hs, Hin.
Qed.

(** C3, as the code implements it.  Whatever the transcript and the duration, every
    score of the result of [analyze_video] lies between 0 and 100: the hook,
    engagement and viral score of every analysed segment, and the three
    averaged and rounded scores of every highlight.  (Scores are rationals
    here, so a score in this range is a number, and a non-negative one.) *)
Theorem scores_in_range (t : Transcription) (duration : Q) :
  Forall segment_scores_in_range (analyzed_segments_of (analyze_video t duration))
  /\ Forall highlight_scores_in_range (highlights (analyze_video t duration)).
Proof.
  unfold analyze_video, analyzed_segments_of.
  destruct (match tr_segments t with Some l => l | None => [] end) as [| seg segs].
  - simpl. split; constructor.
  - cbn [segment_analysis highlights].
    assert (Hs : Forall segment_scores_in_range
                   (map (fun s => {| segment := s;
                                     analysis := _analyze_segment s
                                       match tr_text t with Some x => x | None => "" end |})
                        (seg :: segs))).
    { rewrite Forall_map. rewrite Forall_forall. intros s _.
      apply analyze_segment_scores. }
    split; [exact Hs |].
    apply detect_highlights_range. exact Hs.
Qed.


(** C3, as the specification states it, fails where it speaks of every value of the
    result: the neutral emotion of a segment in which eleven emotion words
    are found is negative, and it is returned under ["segment_analysis"]. *)
Lemma feelings_result_not_as_specified : ~ result_as_specified feelings_transcription 30.
Proof.
  intros (_ & _ & H). rewrite Forall_forall in H.
  assert (Hin : In (neutral (_detect_emotions eleven_feelings))
                   (result_numbers (analyze_video feelings_transcription 30))).
  { unfold result_numbers. apply in_or_app. left.
    vm_compute. do 8 right. left. reflexivity. }
  specialize (H _ Hin). vm_compute in H. apply H. reflexivity.
Qed.

(** The rounded neutral value of the sentiment distribution is negative too. *)
Lemma feelings_sentiment_neutral :
  match sentiment_distribution (sentiment (analyze_video feelings_transcription 30)) with
  | Some d => neutral d == - (48 # 1000)
  | None => False
  end.
Proof.
  vm_compute. reflexivity.
Qed.

(** ** Window contents *)

Lemma window_segments_In (segments : list AnalyzedSegment) (start : Z)
      (s : AnalyzedSegment) :
  In s (window_segments segments start) <->
  In s segments
  /\ inject_Z start <= get_start (segment s)
  /\ get_end (segment s) <= inject_Z (start + 30).
Proof.
  unfold window_segments, in_window, window_size.
  rewrite filter_In, andb_true_iff, !Qle_bool_iff. tauto.
Qed.

(** C9.  The segments of the window that starts at [start] are exactly the
    segments that start at or after [start] and end at or before
    [start + 30], so a segment that only overlaps the window is left out;
    the highlights the loop generates are exactly the highlights built from
    the non-empty windows and from their segments alone; a window without
    segments leaves the list of highlights as it was; and every returned
    highlight is one of the generated ones. *)
Theorem window_contents :
  (forall segments start s,
      In s (window_segments segments start) <->
      In s segments
      /\ inject_Z start <= get_start (segment s)
      /\ get_end (segment s) <= inject_Z (start + 30))
  /\ (forall segments duration h,
        In h (generated_highlights segments duration) <->
        exists start,
          In start (window_starts duration)
          /\ window_segments segments start <> []
          /\ h = make_highlight start (window_segments segments start))
  /\ (forall segments highlights start,
        window_segments segments start = [] ->
        window_step segments highlights start = highlights)
  /\ (forall segments duration h,
        In h (_detect_highlights segments duration) ->
        In h (generated_highlights segments duration)).
Proof.
  split; [exact window_segments_In |].
  split; [exact generated_highlights_In |].
  split.
  - intros segments highlights start H. unfold window_step. rewrite H. reflexivity.
  - intros segments duration h H. unfold _detect_highlights in H.
    apply In_firstn in H. apply sort_desc_In in H. exact H.
Qed.

Lemma window_contents_witness :
  In inside_segment (window_segments [inside_segment; overlapping_segment] 0)
  /\ ~ In overlapping_segment (window_segments [inside_segment; overlapping_segment] 0)
  /\ window_step [overlapping_segment] [] 0 = [].
Proof.
  destruct window_contents as (Hin & _ & Hskip & _).
  split; [| split].
  - apply Hin. split; [left; reflexivity |]. split; vm_compute; discriminate.
  - intros H. apply Hin in H. destruct H as (_ & _ & Hend).
    vm_compute in Hend. apply Hend. reflexivity.
  - apply Hskip. reflexivity.
Defined.


(** ** Vocabulary matching *)

Lemma startswith_app (w rest : string) : startswith (w ++ rest) w = true.
Proof.
  induction w as [| c w IH]; simpl; [destruct rest; reflexivity |].
  rewrite Ascii.eqb_refl. exact IH.
Qed.

Lemma startswith_contains (w s : string) : startswith s w = true -> contains w s = true.
Proof.
  intros H. destruct s as [| c s]; [exact H |].
  change (contains w (String c s)) with (startswith (String c s) w || contains w s).
  rewrite H. reflexivity.
Qed.

(** A word is found wherever it stands in the text, also inside a longer word. *)
Lemma contains_app (w pre post : string) : contains w (pre ++ w ++ post) = true.
Proof.
  induction pre as [| c pre IH].
  - change (contains w (w ++ post) = true).
    apply startswith_contains, startswith_app.
  - change (contains w (String c pre ++ w ++ post))
      with (startswith (String c pre ++ w ++ post) w || contains w (pre ++ w ++ post)).
    rewrite IH. apply orb_true_r.
Qed.

Lemma lower_app (a b : string) : lower (a ++ b) = (lower a ++ lower b)%string.
Proof.
  induction a as [| c a IH]; simpl; [reflexivity |]. rewrite IH. reflexivity.
Qed.

Lemma count_S (n : nat) : count (S n) == 1 + count n.
Proof.
  unfold count. rewrite Nat2Z.inj_succ. unfold Z.succ. rewrite inject_Z_plus.
  change (inject_Z 1) with 1. lra.
Qed.

(** A loop that adds its bonus for each match adds it once per matching word. *)
Lemma add_each_count (test : string -> bool) (words : list string) (bonus score : Q) :
  add_each test words bonus score
  == score + bonus * count (List.length (filter test words)).
Proof.
  unfold add_each. revert score.
  induction words as [| w words IH]; intros score; simpl.
  - unfold count. change (inject_Z (Z.of_nat 0)) with 0. lra.
  - rewrite IH. destruct (test w); [| reflexivity].
    cbn [List.length]. rewrite count_S. lra.
Qed.

Lemma matches_split (words1 words2 : list string) (w text : string) :
  contains w (lower text) = true ->
  matches (words1 ++ w :: words2) text = S (matches (words1 ++ words2) text).
Proof.
  intros H. unfold matches. rewrite !filter_app. simpl. rewrite H.
  rewrite !length_app. simpl. lia.
Qed.

Lemma viral_total_count (text : string) (hook engagement : Q) :
  viral_total text hook engagement
  == hook * (4 # 10) + engagement * (4 # 10) + 20 + 5 * count (matches trending text).
Proof.
  unfold viral_total, matches. apply add_each_count.
Qed.

Lemma engagement_total_count (text : string) :
  engagement_total text
  == 50 + 3 * count (matches emotional_words text)
     + 5 * count (matches cta_words text)
     + 5 * count (matches controversial text).
Proof.
  unfold engagement_total, matches.
  rewrite add_each_count.
  set (inner := add_each _ cta_words 5 _).
  assert (Hinner : inner == 50 + 3 * count (List.length (filter (fun word => contains word (lower text)) emotional_words))
                              + 5 * count (List.length (filter (fun word => contains word (lower text)) cta_words))).
  { unfold inner. rewrite add_each_count. rewrite add_each_count. reflexivity. }
  rewrite Hinner. reflexivity.
Qed.

(** C10.  The vocabularies are matched as substrings of the lower-cased
    text, not as words.  "ai" and "like" are found wherever they stand,
    whatever comes before and after them; a text in which "ai" is found
    gets 5 for it in the viral score before clamping, on top of the
    weighted scores, the constant 20 and 5 for each other trending topic
    found; a text in which "like" is found gets 5 for it in the engagement
    score before clamping.  So "said" (hook 65, engagement 50) has the viral
    score 71 and "unlikely" the engagement score 55. *)
Theorem vocabulary_matching_is_substring :
  (forall pre post,
      contains "ai" (lower (pre ++ "ai" ++ post)) = true
      /\ contains "like" (lower (pre ++ "like" ++ post)) = true)
  /\ (forall text hook engagement,
        contains "ai" (lower text) = true ->
        viral_total text hook engagement
        == hook * (4 # 10) + engagement * (4 # 10) + 20
           + 5 + 5 * count (matches trending_but_ai text))
  /\ (forall text,
        contains "like" (lower text) = true ->
        engagement_total text
        == 50 + 3 * count (matches emotional_words text)
           + 5 + 5 * count (matches cta_words_but_like text)
           + 5 * count (matches controversial text))
  /\ matches trending "said" = 1%nat
  /\ _calculate_viral_score "said" 65 50 == 71
  /\ matches cta_words "unlikely" = 1%nat
  /\ _calculate_engagement_score "unlikely" == 55.
Proof.
  split; [| split; [| split]].
  - intros pre post. rewrite !lower_app. split; apply contains_app.
  - intros text hook engagement H. rewrite viral_total_count.
    change trending with ([] ++ "ai" :: trending_but_ai)%list.
    rewrite (matches_split [] trending_but_ai "ai" text H). simpl app.
    rewrite count_S. lra.
  - intros text H. rewrite engagement_total_count.
    change cta_words
      with (["subscribe"; "follow"] ++ "like" :: ["comment"; "share"; "check out"])%list.
    rewrite (matches_split _ _ "like" text H).
    change (["subscribe"; "follow"] ++ ["comment"; "share"; "check out"])%list
      with cta_words_but_like.
    rewrite count_S. lra.
  - repeat split; vm_compute; reflexivity.
Qed.

Lemma vocabulary_matching_is_substring_witness :
  viral_total "said" 65 50 == 65 * (4 # 10) + 50 * (4 # 10) + 20 + 5 + 5 * count 0
  /\ engagement_total "unlikely" == 50 + 3 * count 0 + 5 + 5 * count 0 + 5 * count 0.
Proof.
  destruct vocabulary_matching_is_substring as (_ & Hai & Hlike & _).
  split.
  - apply (Hai "said" 65 50). reflexivity.
  - apply (Hlike "unlikely"). reflexivity.
Defined.


(** ** Emotions *)

Lemma count_nonneg (n : nat) : 0 <= count n.
Proof.
  unfold count. change 0 with (inject_Z 0). rewrite <- Zle_Qle. lia.
Qed.

Lemma count_add (n m : nat) : count (n + m) == count n + count m.
Proof.
  unfold count. rewrite Nat2Z.inj_add, inject_Z_plus. reflexivity.
Qed.

Lemma count_le (n m : nat) : count n <= count m <-> (n <= m)%nat.
Proof.
  unfold count. rewrite <- Zle_Qle. lia.
Qed.

(** What each of the three loops of [_detect_emotions] does to the mapping:
    0.2 more of its emotion and 0.1 less of neutral for every word found. *)
Ltac loop_base :=
  unfold count; change (inject_Z (Z.of_nat 0)) with 0;
  repeat split; try reflexivity; lra.

Ltac loop_step H :=
  destruct H as (Hj & Ha & Hsd & Hf & Hsp & Hn);
  cbn [List.length]; rewrite ?count_S;
  cbn in Hj, Ha, Hsd, Hf, Hsp, Hn;
  repeat split; try assumption; lra.

Lemma joy_loop (text_lower : string) (words : list string) : forall e : Emotions,
  let e' := update_each text_lower words more_joy e in
  let n := count (List.length (filter (fun word => contains word text_lower) words)) in
  joy e' == joy e + (2 # 10) * n /\ anger e' == anger e /\ sadness e' == sadness e
  /\ fear e' == fear e /\ surprise e' == surprise e
  /\ neutral e' == neutral e - (1 # 10) * n.
Proof.
  unfold update_each.
  induction words as [| w words IH]; intros e; cbn [fold_left filter List.length].
  - loop_base.
  - destruct (contains w _).
    + loop_step (IH (more_joy e)).
    + loop_step (IH e).
Qed.

Lemma anger_loop (text_lower : string) (words : list string) : forall e : Emotions,
  let e' := update_each text_lower words more_anger e in
  let n := count (List.length (filter (fun word => contains word text_lower) words)) in
  joy e' == joy e /\ anger e' == anger e + (2 # 10) * n /\ sadness e' == sadness e
  /\ fear e' == fear e /\ surprise e' == surprise e
  /\ neutral e' == neutral e - (1 # 10) * n.
Proof.
  unfold update_each.
  induction words as [| w words IH]; intros e; cbn [fold_left filter List.length].
  - loop_base.
  - destruct (contains w _).
    + loop_step (IH (more_anger e)).
    + loop_step (IH e).
Qed.

Lemma surprise_loop (text_lower : string) (words : list string) : forall e : Emotions,
  let e' := update_each text_lower words more_surprise e in
  let n := count (List.length (filter (fun word => contains word text_lower) words)) in
  joy e' == joy e /\ anger e' == anger e /\ sadness e' == sadness e
  /\ fear e' == fear e /\ surprise e' == surprise e + (2 # 10) * n
  /\ neutral e' == neutral e - (1 # 10) * n.
Proof.
  unfold update_each.
  induction words as [| w words IH]; intros e; cbn [fold_left filter List.length].
  - loop_base.
  - destruct (contains w _).
    + loop_step (IH (more_surprise e)).
    + loop_step (IH e).
Qed.

(** The mapping before normalisation, by the number of words found. *)
Lemma raw_emotions_fields (text : string) :
  let e := raw_emotions text in
  joy e == (2 # 10) * count (matches joy_words text)
  /\ anger e == (2 # 10) * count (matches anger_words text)
  /\ sadness e == 0 /\ fear e == 0
  /\ surprise e == (2 # 10) * count (matches surprise_words text)
  /\ neutral e == 1 - (1 # 10) * count (signals text).
Proof.
  unfold raw_emotions, signals, matches.
  set (tl := lower text).
  set (e1 := update_each tl joy_words more_joy initial_emotions).
  set (e2 := update_each tl anger_words more_anger e1).
  destruct (joy_loop tl joy_words initial_emotions) as (Hj1 & Ha1 & Hd1 & Hf1 & Hs1 & Hn1).
  destruct (anger_loop tl anger_words e1) as (Hj2 & Ha2 & Hd2 & Hf2 & Hs2 & Hn2).
  destruct (surprise_loop tl surprise_words e2) as (Hj3 & Ha3 & Hd3 & Hf3 & Hs3 & Hn3).
  fold e1 in Hj1, Ha1, Hd1, Hf1, Hs1, Hn1.
  fold e2 in Hj2, Ha2, Hd2, Hf2, Hs2, Hn2.
  cbn [joy anger sadness fear surprise neutral initial_emotions]
    in Hj1, Ha1, Hd1, Hf1, Hs1, Hn1.
  cbv zeta. rewrite !count_add.
  repeat split; lra.
Qed.

Lemma sum_emotion_values (e : Emotions) :
  sum (emotion_values e)
  == joy e + anger e + sadness e + fear e + surprise e + neutral e.
Proof.
  unfold sum, emotion_values, emotion_items. simpl. lra.
Qed.

Lemma raw_emotions_total (text : string) :
  sum (emotion_values (raw_emotions text)) == 1 + (1 # 10) * count (signals text).
Proof.
  rewrite sum_emotion_values.
  destruct (raw_emotions_fields text) as (Hj & Ha & Hd & Hf & Hs & Hn).
  cbv zeta in *. rewrite Hj, Ha, Hd, Hf, Hs, Hn.
  unfold signals. rewrite !count_add. lra.
Qed.

(** The total is positive for every text, so every mapping is normalised. *)
Lemma detect_emotions_normalised (text : string) :
  _detect_emotions text
  = emotions_map (fun v => v / sum (emotion_values (raw_emotions text)))
                 (raw_emotions text).
Proof.
  unfold _detect_emotions.
  destruct (Qlt_le_dec 0 (sum (emotion_values (raw_emotions text)))) as [_ | H];
    [reflexivity |].
  exfalso. rewrite raw_emotions_total in H.
  pose proof (count_nonneg (signals text)). lra.
Qed.

Lemma detect_emotions_fields (text : string) :
  let e := _detect_emotions text in
  let k := count (signals text) in
  joy e == 2 * count (matches joy_words text) / (10 + k)
  /\ anger e == 2 * count (matches anger_words text) / (10 + k)
  /\ sadness e == 0 /\ fear e == 0
  /\ surprise e == 2 * count (matches surprise_words text) / (10 + k)
  /\ neutral e == (10 - k) / (10 + k).
Proof.
  cbv zeta. rewrite detect_emotions_normalised.
  pose proof (raw_emotions_total text) as Ht.
  destruct (raw_emotions_fields text) as (Hj & Ha & Hd & Hf & Hs & Hn).
  pose proof (count_nonneg (signals text)) as Hk.
  cbv zeta in *. unfold emotions_map. cbn [joy anger sadness fear surprise neutral].
  rewrite Ht, Hj, Ha, Hd, Hf, Hs, Hn.
  repeat split; field; lra.
Qed.

Lemma detect_emotions_sum (text : string) :
  sum (emotion_values (_detect_emotions text)) == 1.
Proof.
  destruct (detect_emotions_fields text) as (Hj & Ha & Hd & Hf & Hs & Hn).
  cbv zeta in *.
  pose proof (count_nonneg (signals text)) as Hk.
  rewrite sum_emotion_values, Hj, Ha, Hd, Hf, Hs, Hn.
  unfold signals. rewrite !count_add. field.
  unfold signals in Hk. rewrite !count_add in Hk. lra.
Qed.

(** C4, as the code implements it.  For every text the six values of
    [_detect_emotions] sum to 1; joy, anger, sadness, fear and surprise are
    never negative; neutral is [(10 - k) / (10 + k)], where [k] is the
    number of emotion words found in the text, so neutral is non-negative
    exactly when at most ten words are found; and when no word is found the
    mapping is the initial one, with neutral 1 and the other values 0. *)
Theorem detect_emotions_distribution (text : string) :
  let e := _detect_emotions text in
  let k := signals text in
  sum (emotion_values e) == 1
  /\ 0 <= joy e /\ 0 <= anger e /\ 0 <= sadness e /\ 0 <= fear e /\ 0 <= surprise e
  /\ neutral e == (10 - count k) / (10 + count k)
  /\ (0 <= neutral e <-> (k <= 10)%nat)
  /\ (k = 0%nat -> emotions_eq e initial_emotions).
Proof.
  cbv zeta.
  destruct (detect_emotions_fields text) as (Hj & Ha & Hd & Hf & Hs & Hn).
  cbv zeta in *.
  pose proof (count_nonneg (signals text)) as Hk.
  pose proof (count_nonneg (matches joy_words text)) as Hkj.
  pose proof (count_nonneg (matches anger_words text)) as Hka.
  pose proof (count_nonneg (matches surprise_words text)) as Hks.
  assert (Hden : 0 < 10 + count (signals text)) by lra.
  assert (Hsig : count (signals text)
                 == count (matches joy_words text) + count (matches anger_words text)
                    + count (matches surprise_words text)).
  { unfold signals. rewrite !count_add. reflexivity. }
  split; [| split; [| split; [| split; [| split; [| split; [| split; [| split]]]]]]].
  - apply detect_emotions_sum.
  - rewrite Hj. apply Qle_shift_div_l; lra.
  - rewrite Ha. apply Qle_shift_div_l; lra.
  - rewrite Hd. lra.
  - rewrite Hf. lra.
  - rewrite Hs. apply Qle_shift_div_l; lra.
  - exact Hn.
  - rewrite Hn. rewrite <- (count_le (signals text) 10).
    change (count 10) with 10. split.
    + intros H. apply Qmult_le_r with (z := 10 + count (signals text)) in H; [| exact Hden].
      rewrite Qmult_0_l in H.
      setoid_replace ((10 - count (signals text)) / (10 + count (signals text))
                      * (10 + count (signals text)))
        with (10 - count (signals text)) in H by (field; lra).
      lra.
    + intros H. apply Qle_shift_div_l; lra.
  - intros H0. unfold emotions_eq.
    assert (Hz : forall words, (matches words text <= signals text)%nat ->
                               count (matches words text) == 0).
    { intros words Hle. rewrite H0 in Hle.
      replace (matches words text) with 0%nat by lia. reflexivity. }
    rewrite H0 in Hn. change (count 0) with 0 in Hn.
    rewrite Hj, Ha, Hd, Hf, Hs, Hn.
    rewrite !Hz by (unfold signals; lia).
    cbn [joy anger sadness fear surprise neutral initial_emotions].
    repeat split; field; lra.
Qed.

Lemma detect_emotions_distribution_witness :
  emotions_eq (_detect_emotions "nothing to see") initial_emotions.
Proof.
  apply (detect_emotions_distribution "nothing to see"). reflexivity.
Defined.

(** C4, as the specification states it, fails: a text in which eleven emotion words are
    found has a negative neutral value (-1/21). *)
Lemma eleven_feelings_not_as_specified : ~ emotions_as_specified eleven_feelings.
Proof.
  intros (Hnn & _). destruct Hnn as (_ & _ & _ & _ & _ & Hneutral).
  vm_compute in Hneutral. apply Hneutral. reflexivity.
Qed.

Lemma eleven_feelings_neutral :
  signals eleven_feelings = 11%nat
  /\ neutral (_detect_emotions eleven_feelings) == - (1 # 21).
Proof.
  split; vm_compute; reflexivity.
Qed.


(** ** Sentiment *)

Lemma round_half_even_error (x : Q) :
  x - (1 # 2) <= inject_Z (round_half_even x) <= x + (1 # 2).
Proof.
  pose proof (Qfloor_le x) as Hlo. pose proof (Qlt_floor x) as Hhi.
  rewrite inject_Z_plus in Hhi. change (inject_Z 1) with 1 in Hhi.
  unfold round_half_even.
  destruct (Qlt_le_dec (x - inject_Z (Qfloor x)) (1 # 2)) as [H1 | H1]; [lra |].
  assert (Hup : x - (1 # 2) <= inject_Z (Qfloor x + 1) <= x + (1 # 2)).
  { rewrite inject_Z_plus. change (inject_Z 1) with 1. lra. }
  destruct (Qlt_le_dec (1 # 2) (x - inject_Z (Qfloor x))) as [H2 | H2]; [exact Hup |].
  destruct (Z.even (Qfloor x)); [lra | exact Hup].
Qed.

(** Rounding to three decimals moves a value by at most 0.0005. *)
Lemma round3_error (x : Q) :
  x - (1 # 2000) <= round x 3 <= x + (1 # 2000).
Proof.
  unfold round. change (inject_Z (10 ^ Z.of_nat 3)) with 1000.
  destruct (round_half_even_error (x * 1000)) as [Hlo Hhi].
  split.
  - apply Qle_shift_div_l; lra.
  - apply Qle_shift_div_r; lra.
Qed.

Lemma normalized_distribution_sum (e : Emotions) :
  0 < sum (emotion_values e) ->
  1 - (3 # 1000) <= sum (emotion_values (normalized_distribution e)) <= 1 + (3 # 1000).
Proof.
  intros Hpos. unfold normalized_distribution.
  destruct (Qlt_le_dec 0 (sum (emotion_values e))) as [_ | H]; [| lra].
  set (T := sum (emotion_values e)) in *.
  assert (HT : T == joy e + anger e + sadness e + fear e + surprise e + neutral e)
    by apply sum_emotion_values.
  assert (Hone : joy e / T + anger e / T + sadness e / T + fear e / T
                 + surprise e / T + neutral e / T == 1).
  { setoid_replace (joy e / T + anger e / T + sadness e / T + fear e / T
                    + surprise e / T + neutral e / T)
      with ((joy e + anger e + sadness e + fear e + surprise e + neutral e) / T)
      by (field; lra).
    rewrite <- HT. field. lra. }
  rewrite sum_emotion_values. unfold emotions_map.
  cbn [joy anger sadness fear surprise neutral].
  pose proof (round3_error (joy e / T)). pose proof (round3_error (anger e / T)).
  pose proof (round3_error (sadness e / T)). pose proof (round3_error (fear e / T)).
  pose proof (round3_error (surprise e / T)). pose proof (round3_error (neutral e / T)).
  lra.
Qed.

Lemma analyze_sentiment_distribution_sum (segments : list AnalyzedSegment) :
  segments <> [] -> 0 < aggregate_signal segments ->
  Qabs (distribution_sum (_analyze_sentiment segments) - 1) <= 3 # 1000.
Proof.
  intros Hne Hpos. unfold aggregate_signal in Hpos.
  destruct segments as [| s segments]; [congruence |].
  unfold _analyze_sentiment, distribution_sum. cbn [sentiment_distribution].
  pose proof (normalized_distribution_sum _ Hpos) as [Hlo Hhi].
  apply Qabs_Qle_condition. split; lra.
Qed.

Lemma aggregate_from (segments : list AnalyzedSegment) (acc : Emotions) :
  Forall (fun s => sum (emotion_values (emotions (analysis s))) == 1) segments ->
  sum (emotion_values
         (fold_left (fun a s => add_emotions a (emotions (analysis s))) segments acc))
  == sum (emotion_values acc) + count (List.length segments).
Proof.
  intros H. revert acc. induction H as [| s segments Hs _ IH]; intros acc.
  - simpl. unfold count. change (inject_Z (Z.of_nat 0)) with 0. lra.
  - cbn [fold_left List.length]. rewrite IH, count_S.
    rewrite sum_emotion_values in Hs. rewrite !sum_emotion_values.
    unfold add_emotions. cbn [joy anger sadness fear surprise neutral]. lra.
Qed.

(** Inside [analyze_video] the aggregate signal is the number of segments. *)
Lemma aggregate_signal_analyzed (segments : list Segment) (full_text : string) :
  aggregate_signal
    (map (fun seg => {| segment := seg; analysis := _analyze_segment seg full_text |})
         segments)
  == count (List.length segments).
Proof.
  unfold aggregate_signal, aggregate_emotions. rewrite aggregate_from.
  - rewrite length_map. unfold sum. simpl. lra.
  - rewrite Forall_map. rewrite Forall_forall. intros seg _. simpl.
    apply detect_emotions_sum.
Qed.

(** C5, as the code implements it.  For every transcript with at least one segment
    the aggregate emotion signal is positive (it is the number of
    segments), and the six values of the returned distribution, each
    rounded to three decimals, sum to 1 within 0.003. *)
Theorem sentiment_distribution_sum (t : Transcription) (duration : Q) :
  analyzed_segments_of (analyze_video t duration) <> [] ->
  0 < aggregate_signal (analyzed_segments_of (analyze_video t duration))
  /\ Qabs (distribution_sum (sentiment (analyze_video t duration)) - 1) <= 3 # 1000.
Proof.
  unfold analyze_video, analyzed_segments_of.
  destruct (match tr_segments t with Some l => l | None => [] end) as [| seg segs];
    cbn [segment_analysis sentiment]; [congruence |].
  intros Hne.
  assert (Hpos : 0 < aggregate_signal
                       (map (fun s => {| segment := s;
                                         analysis := _analyze_segment s
                                           match tr_text t with Some x => x | None => "" end |})
                            (seg :: segs))).
  { rewrite aggregate_signal_analyzed. cbn [List.length]. rewrite count_S.
    pose proof (count_nonneg (List.length segs)). lra. }
  split; [exact Hpos |].
  apply analyze_sentiment_distribution_sum; assumption.
Qed.

Lemma sentiment_distribution_sum_witness :
  0 < aggregate_signal (analyzed_segments_of (analyze_video mixed_transcription 30))
  /\ Qabs (distribution_sum (sentiment (analyze_video mixed_transcription 30)) - 1)
     <= 3 # 1000.
Proof.
  apply (sentiment_distribution_sum mixed_transcription 30).
  vm_compute. discriminate.
Defined.

(** C5, as the specification states it, fails: for one segment with the text
    "happy angry" the rounded values are 0.167, 0.167 and 0.667, which sum
    to 1.001. *)
Lemma mixed_distribution_not_as_specified :
  ~ distribution_as_specified mixed_transcription 30.
Proof.
  unfold distribution_as_specified. cbv zeta. intros H.
  assert (Hsig : ~ aggregate_signal
                     (analyzed_segments_of (analyze_video mixed_transcription 30)) == 0).
  { vm_compute. discriminate. }
  specialize (H Hsig). vm_compute in H. apply H. reflexivity.
Qed.

Lemma mixed_distribution_sum :
  distribution_sum (sentiment (analyze_video mixed_transcription 30)) == 1001 # 1000.
Proof.
  vm_compute. reflexivity.
Qed.

(** ** Further properties of the scores *)

Lemma add_once_value (test : string -> bool) (words : list string) (bonus score : Q) :
  add_once test words bonus score
  == score + (if existsb test words then bonus else 0).
Proof.
  induction words as [| w words IH]; simpl.
  - lra.
  - destruct (test w); simpl; [lra | exact IH].
Qed.

Lemma hook_score_parts (text : string) (start_time : Q) :
  _calculate_hook_score text start_time
  == 50 + early_bonus start_time + hook_text_bonus text
  /\ 0 <= early_bonus start_time <= 15
  /\ 0 <= hook_text_bonus text <= 30.
Proof.
  assert (He : 0 <= early_bonus start_time <= 15).
  { unfold early_bonus. destruct (Qlt_le_dec start_time 30); [lra |].
    destruct (Qlt_le_dec start_time 60); lra. }
  assert (Ht : 0 <= hook_text_bonus text <= 30).
  { unfold hook_text_bonus.
    destruct (contains "?" text), (existsb _ bold_indicators), (has_digit text),
      (existsb _ story_starters); lra. }
  split; [| split; assumption].
  unfold _calculate_hook_score, early_bonus, hook_text_bonus in *.
  destruct (Qlt_le_dec start_time 30); [| destruct (Qlt_le_dec start_time 60)];
    destruct (contains "?" text), (has_digit text);
    (rewrite clamp_id;
     [ rewrite !add_once_value;
       destruct (existsb _ bold_indicators), (existsb _ story_starters); lra
     | rewrite !add_once_value;
       destruct (existsb _ bold_indicators), (existsb _ story_starters); lra ]).
Qed.

(** X1.  The hook score of every text at every start lies between 50 and 95,
    so its clamp to [0, 100] never acts; it is 50 plus what the start adds
    plus what the text adds; and for the same text a later start never gives
    a higher score than an earlier one. *)
Theorem hook_score_bounds (text : string) (s1 s2 : Q) :
  50 <= _calculate_hook_score text s1 <= 95
  /\ _calculate_hook_score text s1 == 50 + early_bonus s1 + hook_text_bonus text
  /\ (s1 <= s2 -> _calculate_hook_score text s2 <= _calculate_hook_score text s1).
Proof.
  destruct (hook_score_parts text s1) as (H1 & He1 & Ht).
  destruct (hook_score_parts text s2) as (H2 & He2 & _).
  split; [lra |]. split; [exact H1 |].
  intros Hle. rewrite H1, H2.
  assert (early_bonus s2 <= early_bonus s1); [| lra].
  unfold early_bonus.
  destruct (Qlt_le_dec s1 30), (Qlt_le_dec s2 30), (Qlt_le_dec s1 60), (Qlt_le_dec s2 60); lra.
Qed.

Lemma hook_score_bounds_witness :
  _calculate_hook_score secret_text 45 <= _calculate_hook_score secret_text 5.
Proof.
  apply (hook_score_bounds secret_text 5 45). vm_compute. discriminate.
Defined.

Lemma engagement_total_lower (text : string) : 50 <= engagement_total text.
Proof.
  rewrite engagement_total_count.
  pose proof (count_nonneg (matches emotional_words text)).
  pose proof (count_nonneg (matches cta_words text)).
  pose proof (count_nonneg (matches controversial text)).
  lra.
Qed.

(** X2.  The engagement score is never below 50: it is 50 plus 3 for every
    emotional word, 5 for every call to action and 5 for every controversy
    word found in the text, and 100 when that sum exceeds 100. *)
Theorem engagement_score_value (text : string) :
  50 <= _calculate_engagement_score text <= 100
  /\ (engagement_points text <= 100 ->
      _calculate_engagement_score text == engagement_points text)
  /\ (100 <= engagement_points text -> _calculate_engagement_score text == 100).
Proof.
  pose proof (engagement_total_lower text) as Hlo.
  pose proof (engagement_total_count text) as Hc. fold (engagement_points text) in Hc.
  unfold _calculate_engagement_score, min2, max2.
  destruct (Qlt_le_dec 0 (engagement_total text)); [| lra].
  destruct (Qlt_le_dec (engagement_total text) 100); repeat split; intros; lra.
Qed.

Lemma engagement_score_value_witness :
  _calculate_engagement_score "I love this amazing incredible moment"
  == engagement_points "I love this amazing incredible moment".
Proof.
  apply (engagement_score_value "I love this amazing incredible moment").
  vm_compute. discriminate.
Defined.

Lemma fold_plus_between (lo hi : Q) (l : list Q) (a : Q) :
  Forall (fun x => lo <= x <= hi) l ->
  a + lo * count (List.length l) <= fold_left Qplus l a
  /\ fold_left Qplus l a <= a + hi * count (List.length l).
Proof.
  intros Hl. revert a. induction Hl as [| x l [Hx0 Hx1] _ IH]; intros a.
  - simpl. unfold count. change (inject_Z (Z.of_nat 0)) with 0. split; lra.
  - cbn [fold_left List.length]. destruct (IH (a + x)) as [IH0 IH1].
    rewrite count_S. split; lra.
Qed.

Lemma mean_between (lo hi : Q) (l : list Q) :
  l <> [] -> Forall (fun x => lo <= x <= hi) l -> lo <= mean l <= hi.
Proof.
  intros Hne Hl. unfold mean, sum.
  destruct (fold_plus_between lo hi l 0 Hl) as [H0 H1]. fold (count (List.length l)).
  assert (Hn : 0 < count (List.length l)).
  { destruct l as [| x l]; [congruence |]. cbn [List.length]. rewrite count_S.
    pose proof (count_nonneg (List.length l)). lra. }
  split.
  - apply Qle_shift_div_l; [exact Hn | lra].
  - apply Qle_shift_div_r; [exact Hn | lra].
Qed.

Lemma round1_between (a b : Z) (x : Q) :
  between_scores a b x -> between_scores a b (round x 1).
Proof.
  intros [H0 H1]. unfold between_scores, round.
  change (inject_Z (10 ^ Z.of_nat 1)) with 10.
  destruct (round_half_even_bounds (x * 10) (a * 10) (b * 10)) as [Hlo Hhi].
  - rewrite inject_Z_mult. change (inject_Z 10) with 10. lra.
  - rewrite inject_Z_mult. change (inject_Z 10) with 10. lra.
  - rewrite Zle_Qle in Hlo, Hhi. rewrite inject_Z_mult in Hlo, Hhi.
    change (inject_Z 10) with 10 in *.
    split.
    + apply Qle_shift_div_l; lra.
    + apply Qle_shift_div_r; lra.
Qed.

Lemma analyze_segment_tight (seg : Segment) (full_text : string) :
  segment_scores_tight {| segment := seg; analysis := _analyze_segment seg full_text |}.
Proof.
  unfold segment_scores_tight, between_scores, _analyze_segment; simpl.
  destruct (hook_score_parts (get_text seg) (get_start seg)) as (Hh & He & Ht).
  pose proof (engagement_total_lower (get_text seg)) as Hel.
  assert (Heng : 50 <= _calculate_engagement_score (get_text seg) <= 100).
  { unfold _calculate_engagement_score, min2, max2.
    destruct (Qlt_le_dec 0 (engagement_total (get_text seg))); [| lra].
    destruct (Qlt_le_dec (engagement_total (get_text seg)) 100); lra. }
  change (inject_Z 50) with 50. change (inject_Z 95) with 95.
  change (inject_Z 100) with 100. change (inject_Z 60) with 60.
  split; [lra |]. split; [exact Heng |].
  unfold _calculate_viral_score.
  set (h := _calculate_hook_score (get_text seg) (get_start seg)) in *.
  set (e := _calculate_engagement_score (get_text seg)) in *.
  pose proof (viral_total_count (get_text seg) h e) as Hv.
  pose proof (count_nonneg (matches trending (get_text seg))) as Hk.
  unfold min2, max2.
  destruct (Qlt_le_dec 0 (viral_total (get_text seg) h e)); [| lra].
  destruct (Qlt_le_dec (viral_total (get_text seg) h e) 100); lra.
Qed.

Lemma make_highlight_tight (start : Z) (inside : list AnalyzedSegment) :
  inside <> [] -> Forall segment_scores_tight inside ->
  highlight_scores_tight (make_highlight start inside).
Proof.
  intros Hne Hin. unfold highlight_scores_tight, make_highlight; simpl.
  assert (Hm : forall (a b : Z) (f : AnalyzedSegment -> Q),
             (forall s, segment_scores_tight s -> between_scores a b (f s)) ->
             between_scores a b (round (mean (map f inside)) 1)).
  { intros a b f Hf. apply round1_between. apply mean_between.
    - destruct inside; [congruence | discriminate].
    - rewrite Forall_map. eapply Forall_impl; [exact Hf | exact Hin]. }
  split; [| split]; apply Hm; intros s (Hh & He & Hv); assumption.
Qed.

(** X3.  Inside [analyze_video] the scores keep tighter ranges than the
    documented [0, 100]: for every analysed segment the hook score is in
    [50, 95], the engagement score in [50, 100] and the viral score in
    [60, 100], and the averaged scores of every highlight lie in the same
    three ranges. *)
Theorem analysis_scores_tight (t : Transcription) (duration : Q) :
  Forall segment_scores_tight (analyzed_segments_of (analyze_video t duration))
  /\ Forall highlight_scores_tight (highlights (analyze_video t duration)).
Proof.
  unfold analyze_video, analyzed_segments_of.
  destruct (match tr_segments t with Some l => l | None => [] end) as [| seg segs].
  - simpl. split; constructor.
  - cbn [segment_analysis highlights].
    set (full_text := match tr_text t with Some x => x | None => "" end).
    assert (Hs : Forall segment_scores_tight
                   (map (fun s => {| segment := s; analysis := _analyze_segment s full_text |})
                        (seg :: segs))).
    { rewrite Forall_map. rewrite Forall_forall. intros s _.
      apply analyze_segment_tight. }
    split; [exact Hs |].
    rewrite Forall_forall. intros h Hh.
    unfold _detect_highlights in Hh. apply In_firstn in Hh.
    apply sort_desc_In in Hh. apply generated_highlights_In in Hh.
    destruct Hh as [start [_ [Hne ->]]].
    apply make_highlight_tight; [exact Hne |].
    unfold window_segments. rewrite Forall_forall in *. intros s Hin.
    apply filter_In in Hin. apply Hs, Hin.
Qed.

(** ** Letter case *)

Lemma lower_char_idempotent (c : ascii) : lower_char (lower_char c) = lower_char c.
Proof.
  destruct c as [[] [] [] [] [] [] [] []]; vm_compute; reflexivity.
Qed.

Lemma lower_idempotent (s : string) : lower (lower s) = lower s.
Proof.
  induction s as [| c s IH]; simpl; [reflexivity |].
  rewrite lower_char_idempotent, IH. reflexivity.
Qed.

Lemma lower_char_digit (c : ascii) : is_digit (lower_char c) = is_digit c.
Proof.
  destruct c as [[] [] [] [] [] [] [] []]; vm_compute; reflexivity.
Qed.

Lemma lower_char_question (c : ascii) : Ascii.eqb "?" (lower_char c) = Ascii.eqb "?" c.
Proof.
  destruct c as [[] [] [] [] [] [] [] []]; vm_compute; reflexivity.
Qed.

Lemma has_digit_lower (s : string) : has_digit (lower s) = has_digit s.
Proof.
  induction s as [| c s IH]; simpl; [reflexivity |].
  rewrite lower_char_digit, IH. reflexivity.
Qed.

Lemma startswith_empty (s : string) : startswith s "" = true.
Proof. destruct s; reflexivity. Qed.

Lemma contains_question_lower (s : string) : contains "?" (lower s) = contains "?" s.
Proof.
  induction s as [| c s IH]; [reflexivity |].
  cbn [lower].
  change (contains "?" (String (lower_char c) (lower s)))
    with (Ascii.eqb "?" (lower_char c) && startswith (lower s) "" || contains "?" (lower s)).
  change (contains "?" (String c s))
    with (Ascii.eqb "?" c && startswith s "" || contains "?" s).
  rewrite lower_char_question, IH, !startswith_empty. reflexivity.
Qed.

(** X4.  Apart from the emphasis words among the keywords, the analysis of a
    text does not depend on the case of its letters: the hook score, the
    engagement score, the viral score, the emotions, the topic shift flag
    and the topics of a text are those of the lower-cased text. *)
Theorem analysis_ignores_case (text context : string) (start hook engagement : Q) :
  _calculate_hook_score (lower text) start = _calculate_hook_score text start
  /\ _calculate_engagement_score (lower text) = _calculate_engagement_score text
  /\ _calculate_viral_score (lower text) hook engagement
     = _calculate_viral_score text hook engagement
  /\ _detect_emotions (lower text) = _detect_emotions text
  /\ _detect_topic_shift (lower text) context = _detect_topic_shift text context
  /\ _extract_topics (lower text) = _extract_topics text.
Proof.
  unfold _calculate_hook_score, _calculate_engagement_score, engagement_total,
    _calculate_viral_score, viral_total, _detect_emotions, raw_emotions,
    _detect_topic_shift, _extract_topics.
  rewrite !lower_idempotent, has_digit_lower, contains_question_lower.
  repeat split; reflexivity.
Qed.

(** ** Topics and keywords *)

Lemma all_chars_app (p : ascii -> bool) (a b : string) :
  all_chars p (a ++ b) = all_chars p a && all_chars p b.
Proof.
  induction a as [| c a IH]; simpl; [reflexivity |].
  rewrite IH. apply andb_assoc.
Qed.

(** The words [re.findall] returns are long enough and are made of letters
    of the class; [p] is any test the letters of the scanned text pass. *)
Lemma scan_runs_words (is_letter p : ascii -> bool) (min_len : nat) (s : string) :
  forall (prev_word : bool) (run : option string),
    all_chars (fun c => negb (is_letter c) || p c) s = true ->
    (forall r, run = Some r -> all_chars p r = true) ->
    Forall (fun w => (min_len <= String.length w)%nat /\ all_chars p w = true)
           (scan_runs is_letter min_len prev_word run s).
Proof.
  assert (Hemit : forall run, (forall r, run = Some r -> all_chars p r = true) ->
            Forall (fun w => (min_len <= String.length w)%nat /\ all_chars p w = true)
                   (emit min_len run)).
  { intros [r |] Hr; simpl; [| constructor].
    destruct (min_len <=? String.length r)%nat eqn:Hlen; [| constructor].
    constructor; [| constructor]. split; [apply Nat.leb_le; exact Hlen | auto]. }
  induction s as [| c s IH]; intros prev_word run Hs Hrun; simpl.
  - apply Hemit. exact Hrun.
  - simpl in Hs. apply andb_true_iff in Hs. destruct Hs as [Hc Hs].
    destruct (is_letter c) eqn:Hl.
    + simpl in Hc. destruct run as [r |].
      * apply IH; [exact Hs |]. intros r' Hr'. injection Hr' as <-.
        rewrite all_chars_app. simpl. rewrite (Hrun r eq_refl), Hc. reflexivity.
      * destruct prev_word; apply IH; try exact Hs; intros r' Hr'; try discriminate.
        injection Hr' as <-. simpl. rewrite Hc. reflexivity.
    + apply Forall_app. split.
      * destruct (is_word c); [constructor | apply Hemit; exact Hrun].
      * apply IH; [exact Hs |]. intros r' Hr'. discriminate.
Qed.

Lemma lower_char_letter (c : ascii) :
  negb (is_ascii_upper (lower_char c) || is_ascii_lower (lower_char c))
  || is_ascii_lower (lower_char c) = true.
Proof.
  destruct c as [[] [] [] [] [] [] [] []]; vm_compute; reflexivity.
Qed.

Lemma lower_letters (s : string) :
  all_chars (fun c => negb (is_ascii_upper c || is_ascii_lower c) || is_ascii_lower c)
            (lower s) = true.
Proof.
  induction s as [| c s IH]; simpl; [reflexivity |].
  rewrite lower_char_letter, IH. reflexivity.
Qed.

Lemma count_word_keys (word : string) (word_freq : list (string * nat)) (k : string) :
  In k (map fst (count_word word word_freq)) <-> k = word \/ In k (map fst word_freq).
Proof.
  induction word_freq as [| [k' n] rest IH]; simpl.
  - intuition congruence.
  - destruct (String.eqb k' word) eqn:He; simpl.
    + apply String.eqb_eq in He. subst k'. intuition congruence.
    + rewrite IH. intuition congruence.
Qed.

Lemma count_word_NoDup (word : string) (word_freq : list (string * nat)) :
  NoDup (map fst word_freq) -> NoDup (map fst (count_word word word_freq)).
Proof.
  induction word_freq as [| [k' n] rest IH]; simpl; intros Hnd.
  - constructor; [intros [] | constructor].
  - inversion Hnd as [| ? ? Hnot Hrest]; subst.
    destruct (String.eqb k' word) eqn:He; simpl.
    + constructor; assumption.
    + constructor; [| apply IH; exact Hrest].
      rewrite count_word_keys. intros [Hk | Hk]; [| contradiction].
      apply String.eqb_neq in He. congruence.
Qed.

Lemma existsb_eqb_In (w : string) (l : list string) :
  existsb (String.eqb w) l = true <-> In w l.
Proof.
  rewrite existsb_exists. split.
  - intros [x [Hx He]]. apply String.eqb_eq in He. subst x. exact Hx.
  - intros H. exists w. split; [exact H | apply String.eqb_refl].
Qed.

(** The keys of the frequency table: words of the text, none a stop word,
    none twice. *)
Lemma word_freq_keys (words : list string) (acc : list (string * nat)) (P : string -> Prop) :
  Forall P words -> Forall P (map fst acc) ->
  Forall (fun k => ~ In k stop_words) (map fst acc) ->
  NoDup (map fst acc) ->
  let word_freq :=
    fold_left (fun freq word =>
                 if existsb (String.eqb word) stop_words then freq
                 else count_word word freq) words acc in
  Forall P (map fst word_freq)
  /\ Forall (fun k => ~ In k stop_words) (map fst word_freq)
  /\ NoDup (map fst word_freq).
Proof.
  intros Hw. revert acc. induction Hw as [| w words Hpw _ IH]; intros acc HP Hstop Hnd.
  - simpl. auto.
  - cbn [fold_left]. destruct (existsb (String.eqb w) stop_words) eqn:He.
    + apply IH; assumption.
    + assert (Hns : ~ In w stop_words).
      { intros Hin. apply existsb_eqb_In in Hin. congruence. }
      apply IH.
      * rewrite Forall_forall in *. intros k Hk. apply count_word_keys in Hk.
        destruct Hk as [-> | Hk]; auto.
      * rewrite Forall_forall in *. intros k Hk. apply count_word_keys in Hk.
        destruct Hk as [-> | Hk]; auto.
      * apply count_word_NoDup. exact Hnd.
Qed.

Lemma NoDup_firstn {A : Type} (n : nat) (l : list A) : NoDup l -> NoDup (firstn n l).
Proof.
  intros H. rewrite <- (firstn_skipn n l) in H. apply NoDup_app_remove_r in H. exact H.
Qed.

Lemma extract_topics_words (text : string) :
  (List.length (_extract_topics text) <= 5)%nat
  /\ NoDup (_extract_topics text)
  /\ Forall topic_word (_extract_topics text).
Proof.
  unfold _extract_topics.
  set (words := findall_runs _ 4 (lower text)).
  assert (Hwords : Forall (fun w => (4 <= String.length w)%nat
                                    /\ all_chars is_ascii_lower w = true) words).
  { unfold words, findall_runs. apply scan_runs_words.
    - apply lower_letters.
    - intros r Hr. discriminate. }
  destruct (word_freq_keys words [] _ Hwords (Forall_nil _) (Forall_nil _) (NoDup_nil _))
    as (HP & Hstop & Hnd).
  cbv zeta in HP, Hstop, Hnd.
  set (word_freq := fold_left _ words []) in *.
  set (gtb := fun y x : string * nat => (snd x <? snd y)%nat).
  assert (Hperm : Permutation (map fst word_freq) (map fst (sort_desc gtb word_freq))).
  { apply Permutation_map, sort_desc_perm. }
  rewrite length_map, length_firstn. split; [lia |].
  rewrite <- firstn_map. split.
  - apply NoDup_firstn. eapply Permutation_NoDup; eassumption.
  - rewrite Forall_forall. intros w Hw. apply In_firstn in Hw.
    apply (Permutation_in _ (Permutation_sym Hperm)) in Hw.
    rewrite Forall_forall in HP, Hstop.
    destruct (HP w Hw) as [Hlen Hlow]. repeat split; auto.
Qed.

(** X5.  [_extract_topics] returns at most five topics, no topic twice;
    every topic is a run of at least four lower-case ASCII letters and is
    not one of the stop words. *)
Theorem extract_topics_shape (text : string) :
  (List.length (_extract_topics text) <= 5)%nat
  /\ NoDup (_extract_topics text)
  /\ Forall topic_word (_extract_topics text).
Proof.
  destruct (extract_topics_words text) as (Hlen & Hnd & Hwords).
  split; [exact Hlen |]. split; [exact Hnd | exact Hwords].
Qed.

Lemma existsb_eqb_false (w : string) (l : list string) :
  existsb (String.eqb w) l = false <-> ~ In w l.
Proof.
  rewrite <- existsb_eqb_In. destruct (existsb (String.eqb w) l); split; intros H.
  - discriminate.
  - exfalso. apply H. reflexivity.
  - discriminate.
  - reflexivity.
Qed.

(** [dict.fromkeys] keeps one copy of every key, in the order of the first
    occurrences. *)
Lemma dedup_spec (l seen : list string) :
  NoDup (dedup seen l)
  /\ forall x, In x (dedup seen l) <-> In x l /\ ~ In x seen.
Proof.
  revert seen. induction l as [| y l IH]; intros seen; simpl.
  - split; [constructor | intros x; tauto].
  - destruct (existsb (String.eqb y) seen) eqn:He.
    + apply existsb_eqb_In in He. destruct (IH seen) as [Hnd Hin].
      split; [exact Hnd |]. intros x. rewrite Hin. split.
      * tauto.
      * intros [[-> | Hx] Hns]; [contradiction | tauto].
    + apply existsb_eqb_false in He. destruct (IH (y :: seen)) as [Hnd Hin].
      split.
      * constructor; [| exact Hnd]. rewrite Hin. simpl. tauto.
      * intros x. simpl. rewrite Hin. simpl.
        destruct (string_dec y x) as [-> | Hne]; [tauto |]. tauto.
Qed.




(** ** Further properties of the windows *)

(** X7.  The loop of [_detect_highlights] runs over exactly the multiples of
    5 from 0 on for which [start + 30] does not exceed the duration
    truncated to an integer; there are [(int(duration) - 25) / 5] of them
    (none when that is not positive). *)
Theorem window_starts_spec (duration : Q) :
  (forall start,
      In start (window_starts duration) <->
      (0 <= start)%Z /\ (start mod 5 = 0)%Z /\ (start + 30 <= int duration)%Z)
  /\ List.length (window_starts duration) = Z.to_nat ((int duration - 25) / 5).
Proof.
  split; [intros start; apply window_starts_In |].
  unfold window_starts, range, window_size, stride.
  rewrite length_map, length_seq. f_equal. f_equal. lia.
Qed.

Lemma window_starts_short (duration : Q) :
  (int duration < 30)%Z -> window_starts duration = [].
Proof.
  intros H. destruct (window_starts duration) as [| st l] eqn:Hw; [reflexivity |].
  assert (Hin : In st (window_starts duration)) by (rewrite Hw; left; reflexivity).
  apply window_starts_In in Hin. lia.
Qed.

(** X8.  When the duration, truncated to an integer, is below 30 seconds,
    [analyze_video] returns no highlight at all, whatever the segments. *)
Theorem short_video_no_highlights (t : Transcription) (duration : Q) :
  (int duration < 30)%Z -> highlights (analyze_video t duration) = [].
Proof.
  intros H. unfold analyze_video.
  destruct (match tr_segments t with Some l => l | None => [] end); [reflexivity |].
  cbn [highlights]. unfold _detect_highlights, generated_highlights.
  rewrite (window_starts_short duration H). reflexivity.
Qed.

Lemma short_video_no_highlights_witness :
  highlights (analyze_video secret_transcription 15) = [].
Proof.
  apply (short_video_no_highlights secret_transcription 15). reflexivity.
Defined.

(** X9.  A segment in the window of a highlight starts at or after 0, is
    at most 30 seconds long, and ends at or before the last multiple of 5
    that does not exceed the duration truncated to an integer: a segment
    that starts before 0, is longer than 30 seconds or ends after that
    multiple of 5 contributes to no highlight. *)
Theorem window_segment_limits (segments : list AnalyzedSegment) (duration : Q)
        (start : Z) (s : AnalyzedSegment) :
  In start (window_starts duration) ->
  In s (window_segments segments start) ->
  0 <= get_start (segment s)
  /\ get_end (segment s) <= inject_Z (5 * (int duration / 5))
  /\ get_end (segment s) - get_start (segment s) <= 30.
Proof.
  intros Hst Hs. apply window_starts_In in Hst. destruct Hst as (H0 & Hmod & Hd).
  apply window_segments_In in Hs. destruct Hs as (_ & Hlo & Hhi).
  assert (Hlast : (start + 30 <= 5 * (int duration / 5))%Z).
  { pose proof (Z.div_mod (int duration) 5 ltac:(lia)) as Hdm.
    pose proof (Z.mod_pos_bound (int duration) 5 ltac:(lia)) as Hdb.
    pose proof (Z.div_mod start 5 ltac:(lia)) as Hsm.
    rewrite Hmod in Hsm. lia. }
  rewrite inject_Z_plus in Hhi. change (inject_Z 30) with 30 in Hhi.
  rewrite Zle_Qle in H0, Hlast. rewrite inject_Z_plus in Hlast.
  change (inject_Z 30) with 30 in Hlast. change (inject_Z 0) with 0 in H0.
  repeat split; lra.
Qed.

Lemma window_segment_limits_witness :
  0 <= get_start (segment inside_segment)
  /\ get_end (segment inside_segment) <= inject_Z (5 * (int 34 / 5))
  /\ get_end (segment inside_segment) - get_start (segment inside_segment) <= 30.
Proof.
  apply (window_segment_limits [inside_segment; overlapping_segment] 34 0 inside_segment).
  - left. reflexivity.
  - left. reflexivity.
Defined.

Lemma sorted_starts_NoDup (l : list Highlight) :
  StronglySorted earlier_window l -> NoDup (map hl_start l).
Proof.
  induction 1 as [| h l Hl IH Hh]; simpl; constructor; [| exact IH].
  intros Hin. apply in_map_iff in Hin. destruct Hin as [g [Hg Hgl]].
  rewrite Forall_forall in Hh. specialize (Hh g Hgl). unfold earlier_window in Hh. lia.
Qed.

Lemma detect_highlights_In (segments : list AnalyzedSegment) (duration : Q) (h : Highlight) :
  In h (_detect_highlights segments duration) ->
  exists start,
    In start (window_starts duration)
    /\ window_segments segments start <> []
    /\ h = make_highlight start (window_segments segments start).
Proof.
  intros H. unfold _detect_highlights in H. apply In_firstn in H.
  apply sort_desc_In in H. apply generated_highlights_In in H. exact H.
Qed.

Lemma detect_highlights_starts_NoDup (segments : list AnalyzedSegment) (duration : Q) :
  NoDup (map hl_start (_detect_highlights segments duration)).
Proof.
  unfold _detect_highlights. rewrite <- firstn_map. apply NoDup_firstn.
  eapply Permutation_NoDup.
  - apply Permutation_map. apply sort_desc_perm.
  - apply sorted_starts_NoDup. apply generated_highlights_sorted.
Qed.

(** X10.  Every highlight [analyze_video] returns spans exactly 30 seconds,
    starts at a non-negative multiple of 5 and ends at or before the
    duration truncated to an integer; and no two returned highlights have
    the same start. *)
Theorem highlight_windows (t : Transcription) (duration : Q) :
  Forall (fun h => hl_end h = (hl_start h + 30)%Z
                   /\ (0 <= hl_start h)%Z
                   /\ (hl_start h mod 5 = 0)%Z
                   /\ (hl_end h <= int duration)%Z)
         (highlights (analyze_video t duration))
  /\ NoDup (map hl_start (highlights (analyze_video t duration))).
Proof.
  unfold analyze_video.
  destruct (match tr_segments t with Some l => l | None => [] end) as [| seg segs].
  - simpl. split; constructor.
  - cbn [highlights]. split; [| apply detect_highlights_starts_NoDup].
    rewrite Forall_forall. intros h Hh. apply detect_highlights_In in Hh.
    destruct Hh as [start [Hst [_ ->]]]. apply window_starts_In in Hst.
    unfold make_highlight, window_size. cbn [hl_start hl_end]. lia.
Qed.

Lemma flat_map_windows_length (segments : list AnalyzedSegment) (starts : list Z) :
  List.length (flat_map (window_highlight segments) starts)
  = List.length (filter (nonempty_window segments) starts).
Proof.
  induction starts as [| st starts IH]; simpl; [reflexivity |].
  rewrite length_app, IH. unfold window_highlight, nonempty_window.
  destruct (window_segments segments st); reflexivity.
Qed.

(** X11.  [_detect_highlights] returns one highlight for every window that
    holds a segment, up to ten: the number of highlights is the smaller of 10
    and the number of non-empty windows. *)
Theorem highlights_count (segments : list AnalyzedSegment) (duration : Q) :
  List.length (_detect_highlights segments duration)
  = Nat.min 10 (List.length (filter (nonempty_window segments) (window_starts duration))).
Proof.
  unfold _detect_highlights. rewrite length_firstn. f_equal.
  rewrite <- (Permutation_length (sort_desc_perm more_viral _)).
  unfold generated_highlights. rewrite generated_flat_map. simpl.
  apply flat_map_windows_length.
Qed.

Lemma StronglySorted_app_cross {A : Type} (R : A -> A -> Prop) (a b : list A) :
  StronglySorted R (a ++ b) -> forall x y, In x a -> In y b -> R x y.
Proof.
  induction a as [| z a IH]; intros Hs x y Hx Hy; [contradiction |].
  simpl in Hs. apply StronglySorted_inv in Hs. destruct Hs as [Hs Hz].
  destruct Hx as [<- | Hx].
  - rewrite Forall_forall in Hz. apply Hz. apply in_or_app. right. exact Hy.
  - apply IH; assumption.
Qed.

Lemma sorted_highlights_ranked (l : list Highlight) :
  StronglySorted earlier_window l ->
  StronglySorted ranked_before (sort_desc more_viral l).
Proof.
  apply sort_desc_stable.
  - intros y x H. apply more_viral_true in H. split; [lra |]. intros Heq. lra.
  - intros x y H Hb. apply more_viral_false in H. split; [exact H |]. intros _. exact Hb.
  - intros x y z H [Hzy _]. apply more_viral_false in H. apply more_viral_false. lra.
Qed.

(** X12.  The highlights returned are the best ones: a generated highlight
    that is not returned has a viral score no higher than that of any
    returned highlight. *)
Theorem highlights_are_top (segments : list AnalyzedSegment) (duration : Q)
        (kept dropped : Highlight) :
  In kept (_detect_highlights segments duration) ->
  In dropped (generated_highlights segments duration) ->
  ~ In dropped (_detect_highlights segments duration) ->
  hl_viral_score dropped <= hl_viral_score kept.
Proof.
  unfold _detect_highlights. intros Hk Hg Hn.
  set (sorted := sort_desc more_viral (generated_highlights segments duration)) in *.
  assert (Hs : StronglySorted ranked_before (firstn 10 sorted ++ skipn 10 sorted)).
  { rewrite firstn_skipn. apply sorted_highlights_ranked, generated_highlights_sorted. }
  assert (Hd : In dropped (skipn 10 sorted)).
  { apply (sort_desc_In more_viral) in Hg. fold sorted in Hg.
    rewrite <- (firstn_skipn 10 sorted) in Hg. apply in_app_or in Hg. tauto. }
  apply (StronglySorted_app_cross _ _ _ Hs kept dropped Hk Hd).
Qed.

Lemma highlights_are_top_witness :
  hl_viral_score (make_highlight 30 (window_segments twelve_windows 30))
  <= hl_viral_score (make_highlight 40 (window_segments twelve_windows 40)).
Proof.
  apply (highlights_are_top twelve_windows 100).
  - vm_compute. do 0 right. left. reflexivity.
  - vm_compute. do 5 right. left. reflexivity.
  - vm_compute. intuition discriminate.
Defined.

(** ** Titles, descriptions and keywords of the highlights *)

Lemma string_length_app (a b : string) :
  String.length (a ++ b) = (String.length a + String.length b)%nat.
Proof.
  induction a as [| c a IH]; simpl; [reflexivity |]. rewrite IH. reflexivity.
Qed.

Lemma take_length (n : nat) (s : string) :
  String.length (take n s) = Nat.min n (String.length s).
Proof.
  revert s. induction n as [| n IH]; intros [| c s]; simpl; try reflexivity.
  rewrite IH. reflexivity.
Qed.

Lemma lstrip_starts_clean (s : string) : starts_clean (lstrip s).
Proof.
  induction s as [| c s IH]; simpl; [exact I |].
  destruct (is_space c) eqn:Hc; [exact IH | exact Hc].
Qed.

Lemma lstrip_clean (s : string) : starts_clean s -> lstrip s = s.
Proof.
  destruct s as [| c s]; simpl; [reflexivity |]. intros ->. reflexivity.
Qed.

Lemma rstrip_starts_clean (s : string) : starts_clean s -> starts_clean (rstrip s).
Proof.
  destruct s as [| c s]; simpl; [exact id |]. intros Hc.
  destruct (rstrip s); [rewrite Hc |]; exact Hc.
Qed.

Lemma rstrip_idempotent (s : string) : rstrip (rstrip s) = rstrip s.
Proof.
  induction s as [| c s IH]; simpl; [reflexivity |].
  destruct (rstrip s) as [| k kept] eqn:Hr.
  - destruct (is_space c) eqn:Hc; simpl; [reflexivity |]. rewrite Hc. reflexivity.
  - change (rstrip (String c (String k kept)))
      with (match rstrip (String k kept) with
            | EmptyString => if is_space c then EmptyString else String c EmptyString
            | String a b => String c (String a b)
            end).
    rewrite IH. reflexivity.
Qed.

Lemma lstrip_chars (p : ascii -> bool) (s : string) :
  all_chars p s = true -> all_chars p (lstrip s) = true.
Proof.
  induction s as [| c s IH]; simpl; [reflexivity |]. intros H.
  apply andb_true_iff in H. destruct H as [Hc Hs].
  destruct (is_space c); [apply IH; exact Hs |]. simpl. rewrite Hc, Hs. reflexivity.
Qed.

Lemma rstrip_chars (p : ascii -> bool) (s : string) :
  all_chars p s = true -> all_chars p (rstrip s) = true.
Proof.
  induction s as [| c s IH]; simpl; [reflexivity |]. intros H.
  apply andb_true_iff in H. destruct H as [Hc Hs]. specialize (IH Hs).
  destruct (rstrip s) as [| k kept].
  - destruct (is_space c); simpl; [reflexivity |]. rewrite Hc. reflexivity.
  - change (all_chars p (String c (String k kept)))
      with (p c && all_chars p (String k kept)).
    rewrite Hc, IH. reflexivity.
Qed.

Lemma first_sentence_chars (s : string) : all_chars not_full_stop (first_sentence s) = true.
Proof.
  induction s as [| c s IH]; simpl; [reflexivity |].
  destruct (Ascii.eqb c ".") eqn:Hc; simpl; [reflexivity |].
  unfold not_full_stop at 1. rewrite Hc, IH. reflexivity.
Qed.

Lemma generate_title_length (text : string) :
  (String.length (_generate_title text) <= 60)%nat.
Proof.
  rewrite generate_title_first_sentence. cbv zeta.
  destruct (60 <? String.length (strip (first_sentence text)))%nat eqn:Hlen.
  - apply Nat.ltb_lt in Hlen. rewrite string_length_app, take_length.
    change (String.length "...") with 3%nat. lia.
  - apply Nat.ltb_ge in Hlen. exact Hlen.
Qed.

(** X13.  The title [_generate_title] returns is never longer than 60
    characters.  When the first sentence of the text, stripped, has at most
    60 characters, the title is that sentence: it contains no full stop and
    has no white space at either end. *)
Theorem generate_title_shape (text : string) :
  (String.length (_generate_title text) <= 60)%nat
  /\ ((String.length (strip (first_sentence text)) <= 60)%nat ->
      _generate_title text = strip (first_sentence text)
      /\ all_chars not_full_stop (_generate_title text) = true
      /\ lstrip (_generate_title text) = _generate_title text
      /\ rstrip (_generate_title text) = _generate_title text).
Proof.
  split; [apply generate_title_length |].
  intros Hlen. rewrite generate_title_first_sentence. cbv zeta.
  apply Nat.ltb_ge in Hlen. rewrite Hlen. unfold strip.
  split; [reflexivity |]. split; [| split].
  - apply rstrip_chars, lstrip_chars, first_sentence_chars.
  - apply lstrip_clean, rstrip_starts_clean, lstrip_starts_clean.
  - apply rstrip_idempotent.
Qed.

Lemma generate_title_shape_witness :
  _generate_title "  Hello world. Next" = strip (first_sentence "  Hello world. Next")
  /\ all_chars not_full_stop (_generate_title "  Hello world. Next") = true
  /\ lstrip (_generate_title "  Hello world. Next") = _generate_title "  Hello world. Next"
  /\ rstrip (_generate_title "  Hello world. Next") = _generate_title "  Hello world. Next".
Proof.
  apply (generate_title_shape "  Hello world. Next"). vm_compute. lia.
Defined.

(** X14.  Every highlight [analyze_video] returns has a title of at most 60
    characters, a description of at most 203 characters, which is the whole
    transcript of the window when that has at most 200 characters, and at
    most five keywords, none twice. *)
Theorem highlight_text_limits (t : Transcription) (duration : Q) :
  Forall (fun h => (String.length (hl_title h) <= 60)%nat
                   /\ (String.length (hl_description h) <= 203)%nat
                   /\ ((String.length (hl_transcript h) <= 200)%nat ->
                       hl_description h = hl_transcript h)
                   /\ (List.length (hl_keywords h) <= 5)%nat
                   /\ NoDup (hl_keywords h))
         (highlights (analyze_video t duration)).
Proof.
  unfold analyze_video.
  destruct (match tr_segments t with Some l => l | None => [] end) as [| seg segs].
  - simpl. constructor.
  - cbn [highlights]. rewrite Forall_forall. intros h Hh.
    apply detect_highlights_In in Hh. destruct Hh as [start [_ [_ ->]]].
    unfold make_highlight.
    cbn [hl_title hl_description hl_transcript hl_keywords].
    set (transcript := join " " _).
    split; [apply generate_title_length |]. split; [| split; [| split]].
    + destruct (200 <? String.length transcript)%nat eqn:Hlen.
      * rewrite string_length_app, take_length.
    change (String.length "...") with 3%nat. lia.
      * apply Nat.ltb_ge in Hlen. lia.
    + intros Hlen. apply Nat.ltb_ge in Hlen. rewrite Hlen. reflexivity.
    + rewrite length_firstn. lia.
    + apply NoDup_firstn. unfold _extract_keywords. apply NoDup_firstn. apply dedup_spec.
Qed.

(** ** The overall sentiment *)

Lemma dominant_max (e : Emotions) (k : Emotion) :
  emotion_value e k <= emotion_value e (dominant e).
Proof.
  unfold dominant, emotion_items. cbn [tl argmax_from snd fst].
  destruct (Qlt_le_dec (joy e) (anger e));
    repeat (match goal with
            | |- context [Qlt_le_dec ?a ?b] => destruct (Qlt_le_dec a b); cbn [snd fst] in *
            end);
    destruct k; cbn [emotion_value]; lra.
Qed.

Lemma dominant_never_sad (e : Emotions) :
  no_sadness_no_fear e -> dominant e <> Sadness /\ dominant e <> Fear.
Proof.
  intros (Hj & Hs & Hf).
  unfold dominant, emotion_items. cbn [tl argmax_from snd fst].
  destruct (Qlt_le_dec (joy e) (anger e));
    repeat (match goal with
            | |- context [Qlt_le_dec ?a ?b] => destruct (Qlt_le_dec a b); cbn [snd fst] in *
            end);
    split; intros Hc; try discriminate Hc; lra.
Qed.

Lemma round3_nonneg (x : Q) : 0 <= x -> 0 <= round x 3.
Proof.
  intros Hx. unfold round. change (inject_Z (10 ^ Z.of_nat 3)) with 1000.
  destruct (round_half_even_bounds (x * 1000) 0 (Qceiling (x * 1000))) as [Hlo _].
  - change (inject_Z 0) with 0. lra.
  - apply Qle_ceiling.
  - rewrite Zle_Qle in Hlo. change (inject_Z 0) with 0 in Hlo.
    apply Qle_shift_div_l; lra.
Qed.

Lemma round3_zero (x : Q) : x == 0 -> round x 3 == 0.
Proof.
  intros Hx. unfold round. change (inject_Z (10 ^ Z.of_nat 3)) with 1000.
  destruct (round_half_even_bounds (x * 1000) 0 0) as [Hlo Hhi].
  - change (inject_Z 0) with 0. lra.
  - change (inject_Z 0) with 0. lra.
  - replace (round_half_even (x * 1000)) with 0%Z by lia. reflexivity.
Qed.

Lemma aggregate_no_sadness (segments : list AnalyzedSegment) (acc : Emotions) :
  Forall (fun s => no_sadness_no_fear (emotions (analysis s))) segments ->
  no_sadness_no_fear acc ->
  no_sadness_no_fear
    (fold_left (fun a s => add_emotions a (emotions (analysis s))) segments acc).
Proof.
  intros H. revert acc. induction H as [| s segments Hs _ IH]; intros acc Hacc.
  - exact Hacc.
  - cbn [fold_left]. apply IH.
    destruct Hs as (Hj & Hsd & Hf). destruct Hacc as (Hj' & Hsd' & Hf').
    unfold no_sadness_no_fear, add_emotions. cbn [joy sadness fear].
    repeat split; lra.
Qed.

Lemma normalized_no_sadness (e : Emotions) :
  0 < sum (emotion_values e) -> no_sadness_no_fear e ->
  no_sadness_no_fear (normalized_distribution e).
Proof.
  intros Hpos (Hj & Hs & Hf). unfold normalized_distribution.
  destruct (Qlt_le_dec 0 (sum (emotion_values e))) as [_ | H]; [| lra].
  unfold no_sadness_no_fear, emotions_map. cbn [joy sadness fear].
  split; [| split].
  - apply round3_nonneg. apply Qle_shift_div_l; lra.
  - apply round3_zero. rewrite Hs. field. lra.
  - apply round3_zero. rewrite Hf. field. lra.
Qed.

(** X15.  For a transcript with at least one segment the overall sentiment
    is a label whose share in the returned distribution no other share
    exceeds; it is never sadness or fear, whose shares are always 0, so the
    negative score is the share of anger. *)
Theorem sentiment_overall_dominant (t : Transcription) (duration : Q) :
  analyzed_segments_of (analyze_video t duration) <> [] ->
  exists overall distribution positive negative,
    sentiment (analyze_video t duration)
    = SentimentSummary overall distribution positive negative
    /\ (forall k, emotion_value distribution k <= emotion_value distribution overall)
    /\ overall <> Sadness /\ overall <> Fear
    /\ sadness distribution == 0 /\ fear distribution == 0
    /\ negative == anger distribution.
Proof.
  unfold analyze_video, analyzed_segments_of.
  destruct (match tr_segments t with Some l => l | None => [] end) as [| seg segs];
    cbn [segment_analysis sentiment]; [congruence |].
  intros _.
  set (full_text := match tr_text t with Some x => x | None => "" end).
  set (analyzed := map (fun s => {| segment := s; analysis := _analyze_segment s full_text |})
                       (seg :: segs)).
  assert (Hpos : 0 < aggregate_signal analyzed).
  { unfold analyzed. rewrite aggregate_signal_analyzed. cbn [List.length].
    rewrite count_S. pose proof (count_nonneg (List.length segs)). lra. }
  assert (Hagg : no_sadness_no_fear (aggregate_emotions analyzed)).
  { apply aggregate_no_sadness.
    - unfold analyzed. rewrite Forall_map. rewrite Forall_forall. intros s _. simpl.
      destruct (detect_emotions_fields (get_text s)) as (Hj & _ & Hd & Hf & _).
      cbv zeta in *. pose proof (count_nonneg (signals (get_text s))).
      pose proof (count_nonneg (matches joy_words (get_text s))).
      split; [| split; assumption].
      rewrite Hj. apply Qle_shift_div_l; lra.
    - unfold no_sadness_no_fear, zero_emotions. simpl. repeat split; lra. }
  pose proof (normalized_no_sadness _ Hpos Hagg) as Hnorm.
  unfold _analyze_sentiment. change (map _ (seg :: segs)) with analyzed.
  destruct analyzed as [| a rest] eqn:Ha; [discriminate |]. rewrite <- Ha in *.
  set (dist := normalized_distribution (aggregate_emotions analyzed)) in *.
  exists (dominant dist), dist, (joy dist + surprise dist * (5 # 10)),
    (anger dist + sadness dist + fear dist).
  destruct (dominant_never_sad dist Hnorm) as [Hns Hnf].
  destruct Hnorm as (_ & Hs & Hf).
  repeat split; try assumption.
  - intros k. apply dominant_max.
  - lra.
Qed.

Lemma sentiment_overall_dominant_witness :
  exists overall distribution positive negative,
    sentiment (analyze_video mixed_transcription 30)
    = SentimentSummary overall distribution positive negative
    /\ (forall k, emotion_value distribution k <= emotion_value distribution overall)
    /\ overall <> Sadness /\ overall <> Fear
    /\ sadness distribution == 0 /\ fear distribution == 0
    /\ negative == anger distribution.
Proof.
  apply (sentiment_overall_dominant mixed_transcription 30).
  vm_compute. discriminate.
Defined.

(** ** The most frequent words *)

Lemma frequency_count_word (w k : string) (word_freq : list (string * nat)) :
  frequency (count_word w word_freq) k
  = if String.eqb w k then S (frequency word_freq k) else frequency word_freq k.
Proof.
  induction word_freq as [| [k' n] rest IH]; simpl.
  - destruct (String.eqb w k); reflexivity.
  - destruct (String.eqb k' w) eqn:Hkw; simpl.
    + apply String.eqb_eq in Hkw. subst k'. destruct (String.eqb w k); reflexivity.
    + destruct (String.eqb k' k) eqn:Hkk; [| exact IH].
      apply String.eqb_eq in Hkk. subst k'.
      rewrite String.eqb_sym, Hkw. reflexivity.
Qed.

Lemma frequency_In (word_freq : list (string * nat)) (k : string) (n : nat) :
  NoDup (map fst word_freq) -> In (k, n) word_freq -> frequency word_freq k = n.
Proof.
  induction word_freq as [| [k' m] rest IH]; simpl; intros Hnd Hin; [contradiction |].
  inversion Hnd as [| ? ? Hnot Hrest]; subst.
  destruct Hin as [Heq | Hin].
  - injection Heq as -> ->. rewrite String.eqb_refl. reflexivity.
  - destruct (String.eqb k' k) eqn:Hkk; [| apply IH; assumption].
    apply String.eqb_eq in Hkk. subst k'. exfalso. apply Hnot.
    apply in_map_iff. exists (k, n). split; [reflexivity | exact Hin].
Qed.

Lemma In_frequency (word_freq : list (string * nat)) (k : string) :
  frequency word_freq k <> 0%nat -> In (k, frequency word_freq k) word_freq.
Proof.
  induction word_freq as [| [k' m] rest IH]; simpl; intros H; [congruence |].
  destruct (String.eqb k' k) eqn:Hkk.
  - apply String.eqb_eq in Hkk. subst k'. left. reflexivity.
  - right. apply IH. exact H.
Qed.

Lemma count_words_frequency (words : list string) (acc : list (string * nat)) (k : string) :
  ~ In k stop_words ->
  frequency (count_words words acc) k
  = (frequency acc k + count_occ string_dec words k)%nat.
Proof.
  intros Hk. unfold count_words. revert acc.
  induction words as [| w words IH]; intros acc; cbn [fold_left count_occ]; [lia |].
  destruct (existsb (String.eqb w) stop_words) eqn:Hstop.
  - rewrite IH. destruct (string_dec w k) as [-> | Hne]; [| reflexivity].
    apply existsb_eqb_In in Hstop. contradiction.
  - rewrite IH, frequency_count_word.
    destruct (string_dec w k) as [-> | Hne].
    + rewrite String.eqb_refl. lia.
    + apply String.eqb_neq in Hne. rewrite Hne. reflexivity.
Qed.

Lemma extract_topics_table (text : string) :
  _extract_topics text
  = map fst (firstn 5 (sort_desc (fun y x => (snd x <? snd y)%nat)
                                 (count_words (tokens text) []))).
Proof. reflexivity. Qed.

Lemma sort_by_count_sorted (word_freq : list (string * nat)) :
  StronglySorted (fun a b => (snd b <= snd a)%nat)
                 (sort_desc (fun y x => (snd x <? snd y)%nat) word_freq).
Proof.
  apply sort_desc_stable with (before := fun _ _ => True).
  - intros y x H. apply Nat.ltb_lt in H. lia.
  - intros x y H _. apply Nat.ltb_ge in H. exact H.
  - intros x y z H Hzy. apply Nat.ltb_ge in H. apply Nat.ltb_ge. lia.
  - induction word_freq; constructor; [assumption |].
    rewrite Forall_forall. intros; exact I.
Qed.

(** X16.  The topics are the most frequent words: a topic occurs among the
    words found in the text (runs of at least four letters, lower-cased) at
    least as often as any such word that is neither a stop word nor a
    topic. *)
Theorem topics_most_frequent (text topic word : string) :
  In topic (_extract_topics text) ->
  In word (tokens text) -> ~ In word stop_words ->
  ~ In word (_extract_topics text) ->
  (occurrences text word <= occurrences text topic)%nat.
Proof.
  intros Ht Hw Hstop Hnot.
  destruct (extract_topics_words text) as (_ & _ & Htopic).
  rewrite Forall_forall in Htopic. destruct (Htopic topic Ht) as (_ & _ & Htstop).
  rewrite extract_topics_table in Ht, Hnot.
  set (table := count_words (tokens text) []) in *.
  set (sorted := sort_desc (fun y x => (snd x <? snd y)%nat) table) in *.
  assert (Hnd : NoDup (map fst table)).
  { assert (Htrue : Forall (fun _ : string => True) (tokens text)).
    { rewrite Forall_forall. intros; exact I. }
    destruct (word_freq_keys (tokens text) [] (fun _ => True) Htrue
                             (Forall_nil _) (Forall_nil _) (NoDup_nil _)) as (_ & _ & H).
    exact H. }
  assert (Hfreq : forall k, ~ In k stop_words -> frequency table k = occurrences text k).
  { intros k Hk. unfold table. rewrite count_words_frequency by exact Hk. reflexivity. }
  assert (Hperm : forall p, In p sorted <-> In p table).
  { intros p. apply sort_desc_In. }
  apply in_map_iff in Ht. destruct Ht as [[t' m] [Heq Htm]]. simpl in Heq. subst t'.
  assert (Hm : m = occurrences text topic).
  { rewrite <- Hfreq by exact Htstop. symmetry. apply frequency_In; [exact Hnd |].
    apply Hperm. eapply In_firstn. exact Htm. }
  assert (Hwin : In (word, occurrences text word) (skipn 5 sorted)).
  { assert (Hin : In (word, occurrences text word) sorted).
    { apply Hperm. rewrite <- Hfreq by exact Hstop. apply In_frequency.
      rewrite Hfreq by exact Hstop. unfold occurrences.
      apply (count_occ_In string_dec) in Hw. lia. }
    rewrite <- (firstn_skipn 5 sorted) in Hin. apply in_app_or in Hin.
    destruct Hin as [Hin | Hin]; [| exact Hin].
    exfalso. apply Hnot. apply in_map_iff. eexists. split; [| exact Hin]. reflexivity. }
  assert (Hs : StronglySorted (fun a b => (snd b <= snd a)%nat)
                              (firstn 5 sorted ++ skipn 5 sorted)).
  { rewrite firstn_skipn. apply sort_by_count_sorted. }
  pose proof (StronglySorted_app_cross _ _ _ Hs _ _ Htm Hwin) as Hle.
  simpl in Hle. lia.
Qed.

Lemma topics_most_frequent_witness :
  (occurrences "alpha alpha beta beta gamma gamma delta delta omega omega sigma" "sigma"
   <= occurrences "alpha alpha beta beta gamma gamma delta delta omega omega sigma" "alpha")%nat.
Proof.
  apply (topics_most_frequent
           "alpha alpha beta beta gamma gamma delta delta omega omega sigma").
  - vm_compute. left. reflexivity.
  - vm_compute. do 10 right. left. reflexivity.
  - vm_compute. intuition discriminate.
  - vm_compute. intuition discriminate.
Defined.

(** ** Clips from highlights *)

(** X17.  When the minimum duration does not exceed the maximum,
    [auto_generate_clips] gives every clip a duration between the two, and
    keeps the end of a highlight whose duration already lies between them. *)
Theorem adjusted_end_clamps (start_time end_time min_duration max_duration : Q) :
  min_duration <= max_duration ->
  min_duration
  <= ClipService.adjusted_end start_time end_time min_duration max_duration - start_time
  <= max_duration
  /\ (min_duration <= end_time - start_time <= max_duration ->
      ClipService.adjusted_end start_time end_time min_duration max_duration == end_time).
Proof.
  intros Hle. unfold ClipService.adjusted_end. cbv zeta.
  destruct (Qlt_le_dec (end_time - start_time) min_duration);
    [| destruct (Qlt_le_dec max_duration (end_time - start_time))];
    repeat split; intros; lra.
Qed.

Lemma adjusted_end_clamps_witness :
  15 <= ClipService.adjusted_end 10 100 15 60 - 10 <= 60
  /\ (15 <= 100 - 10 <= 60 -> ClipService.adjusted_end 10 100 15 60 == 100).
Proof.
  apply (adjusted_end_clamps 10 100 15 60). vm_compute. discriminate.
Defined.

Lemma analyze_video_highlight (t : Transcription) (duration : Q) (h : Highlight) :
  In h (highlights (analyze_video t duration)) ->
  exists start inside,
    In start (window_starts duration)
    /\ highlight_scores_in_range (make_highlight start inside)
    /\ h = make_highlight start inside.
Proof.
  unfold analyze_video.
  destruct (match tr_segments t with Some l => l | None => [] end) as [| seg segs];
    [intros [] |].
  cbn [highlights]. intros Hh.
  pose proof (proj1 (Forall_forall _ _)
                (detect_highlights_range
                   (map (fun s => {| segment := s;
                                     analysis := _analyze_segment s
                                       match tr_text t with Some x => x | None => "" end |})
                        (seg :: segs)) duration
                   ltac:(rewrite Forall_map, Forall_forall; intros s _;
                         apply analyze_segment_scores)) h Hh) as Hrange.
  apply detect_highlights_In in Hh. destruct Hh as [start [Hst [_ ->]]].
  eexists. eexists. split; [exact Hst |]. split; [exact Hrange | reflexivity].
Qed.

Lemma slice_to_firstn {A : Type} (n : Z) (l : list A) :
  exists k, ClipService.slice_to n l = firstn k l.
Proof.
  unfold ClipService.slice_to. destruct (n <? 0)%Z; eexists; reflexivity.
Qed.

Lemma str_length (i : nat) :
  (i < 10)%nat -> (String.length (ClipService.str (i + 1)) <= 2)%nat.
Proof.
  intros Hi. do 10 (destruct i as [| i]; [vm_compute; lia |]). lia.
Qed.

Lemma clip_data_good (t : Transcription) (duration : Q) (i : nat) (h : Highlight) :
  (i < 10)%nat -> In h (highlights (analyze_video t duration)) ->
  good_clip_request (ClipService.clip_data 15 60 i h).
Proof.
  intros Hi Hh. apply analyze_video_highlight in Hh.
  destruct Hh as (start & inside & Hst & Hrange & ->).
  apply window_starts_In in Hst. destruct Hst as (H0 & _ & _).
  destruct Hrange as ((Hv0 & Hv1) & (Hh0 & Hh1) & (He0 & He1)).
  assert (Hend : ClipService.adjusted_end (inject_Z start) (inject_Z (start + window_size))
                                          15 60
                 == inject_Z start + 30).
  { unfold ClipService.adjusted_end, window_size. cbv zeta.
    rewrite inject_Z_plus. change (inject_Z 30) with 30.
    destruct (Qlt_le_dec (inject_Z start + 30 - inject_Z start) 15); [lra |].
    destruct (Qlt_le_dec 60 (inject_Z start + 30 - inject_Z start)); [lra |].
    reflexivity. }
  rewrite Zle_Qle in H0. change (inject_Z 0) with 0 in H0.
  unfold good_clip_request, ClipService.passes_validation, ClipService.score_ok,
    ClipService.clip_data.
  cbn [ClipService.clip_title ClipService.clip_start_time ClipService.clip_end_time
       ClipService.clip_viral_score ClipService.clip_hook_score
       ClipService.clip_engagement_score make_highlight hl_start hl_end hl_title
       hl_viral_score hl_hook_score hl_engagement_score] in *.
  split; [| rewrite Hend; lra].
  pose proof (generate_title_length
                (join " " (map (fun s => get_text (segment s)) inside))) as Htitle.
  pose proof (str_length i Hi) as Hstr.
  rewrite !string_length_app.
  change (String.length "Clip ") with 5%nat. change (String.length ": ") with 2%nat.
  repeat (apply andb_true_intro; split);
    try (apply Nat.leb_le; lia);
    try (apply Qle_bool_iff; assumption).
  apply negb_true_iff. destruct (Qle_bool _ 0) eqn:Hq; [| reflexivity].
  apply Qle_bool_iff in Hq. rewrite Hend in Hq. lra.
Qed.

(** X18.  Run on the highlights [analyze_video] returns, with the default
    bounds of 15 and 60 seconds, the loop of [auto_generate_clips] builds
    only requests that pass the validation of [ClipCreate]; every clip
    spans 30 seconds from the start of its highlight, the clips follow the
    order of the highlights, and there are at most ten of them: as many as
    highlights, or [max_clips] when that is fewer and not negative. *)
Theorem clips_from_highlights (t : Transcription) (duration : Q) (max_clips : Z) :
  let hs := highlights (analyze_video t duration) in
  let reqs := ClipService.clip_requests hs max_clips 15 60 in
  Forall good_clip_request reqs
  /\ map ClipService.clip_start_time reqs
     = map (fun h => inject_Z (hl_start h)) (ClipService.slice_to max_clips hs)
  /\ (List.length reqs <= 10)%nat
  /\ ((0 <= max_clips)%Z ->
      List.length reqs = Nat.min (Z.to_nat max_clips) (List.length hs)).
Proof.
  cbv zeta. set (hs := highlights (analyze_video t duration)).
  assert (Hlen : (List.length hs <= 10)%nat).
  { unfold hs, analyze_video.
    destruct (match tr_segments t with Some l => l | None => [] end); simpl; [lia |].
    unfold _detect_highlights. rewrite length_firstn. lia. }
  destruct (slice_to_firstn max_clips hs) as [k Hk].
  unfold ClipService.clip_requests, ClipService.enumerate. rewrite Hk.
  set (l := firstn k hs).
  assert (Hl : (List.length l <= 10)%nat).
  { unfold l. rewrite length_firstn. lia. }
  split; [| split; [| split]].
  - rewrite Forall_map, Forall_forall. intros [i h] Hin. cbn [fst snd].
    pose proof (in_combine_l _ _ _ _ Hin) as Hi. apply in_seq in Hi.
    pose proof (in_combine_r _ _ _ _ Hin) as Hh.
    apply (clip_data_good t duration); [lia |].
    unfold l in Hh. apply In_firstn in Hh. exact Hh.
  - rewrite map_map. cbn [ClipService.clip_data ClipService.clip_start_time].
    rewrite <- (map_map snd (fun h => inject_Z (hl_start h))).
    f_equal. clear. generalize 0%nat. induction l as [| h l IH]; intros n; simpl;
      [reflexivity |]. rewrite IH. reflexivity.
  - rewrite length_map, length_combine, length_seq. lia.
  - intros Hmax. rewrite length_map, length_combine, length_seq, Nat.min_id.
    unfold l. rewrite <- Hk. unfold ClipService.slice_to.
    destruct (max_clips <? 0)%Z eqn:Hneg; [apply Z.ltb_lt in Hneg; lia |].
    apply length_firstn.
Qed.
